(** * Retrieval-augmented movie chat notebook: embedding and properties

    Shallow embedding of the Python cells of
    [sagemaker/sagemaker-llm-rag.ipynb]: the document loading loop, the
    instruction formatter, the SageMaker content handler, the prompt template
    and the widget-driven chat loop ([ChatUX]).

    Conventions.
    - A Python [str] is a [string]; each [ascii] is one code point below 256.
    - A raised exception is the [Raise] branch of [result]; the exceptions are
      the Python built-in ones the cells can raise.
    - A [dict] is an association list in insertion order with distinct keys.
    - Mutable widgets live in a store and are referred to by index. *)

From Stdlib Require Import ZArith Ascii String Lia DecimalString.
From stdpp Require Import base list strings.

Local Open Scope string_scope.
Local Open Scope list_scope.

(** ** Python primitives *)

Module Py.

(** A Python [float], kept as the decimal it was written as:
    [FDec neg m e] is (-1)^neg * m * 10^e. The rounding to binary64 is
    applied where a value is compared ([float_is_zero]). *)
Inductive pyfloat :=
| FNan
| FInf (neg : bool)
| FDec (neg : bool) (m : N) (e : Z).

(** The values [json] reads and writes. *)
#[warnings="-register-all"]
Inductive pyval :=
| VNone
| VBool (b : bool)
| VInt (z : Z)
| VFloat (f : pyfloat)
| VStr (s : string)
| VList (l : list pyval)
| VDict (d : list (string * pyval)).

(** The exception classes raised by the modelled cells; all of them are
    subclasses of Python's [Exception]. [Failure] stands for an exception
    coming out of an external service call, with its message. *)
Inductive exn :=
| IndexError
| KeyError (k : pyval)
| ValueError (arg : string)
| TypeError
| AttributeError
| Failure (msg : string).

Inductive result (A : Type) :=
| Ok (a : A)
| Raise (e : exn).
Arguments Ok {A} a.
Arguments Raise {A} e.

Definition bind {A B} (m : result A) (k : A -> result B) : result B :=
  match m with
  | Ok a => k a
  | Raise e => Raise e
  end.

Definition is_ok {A} (m : result A) : bool :=
  match m with Ok _ => true | Raise _ => false end.

(** The double quote character, and a one-character string of it. *)
Definition dquote : ascii := ascii_of_nat 34.
Definition DQ : string := String dquote EmptyString.
Definition LF : string := String (ascii_of_nat 10) EmptyString.

(** [str.isspace] on one code point below 256: tab, line feed, vertical
    tab, form feed, carriage return, the separators 28 to 31, space, next
    line (133) and no-break space (160). *)
Definition is_space (c : ascii) : bool :=
  let n := nat_of_ascii c in
  (Nat.leb 9 n && Nat.leb n 13) || (Nat.leb 28 n && Nat.leb n 32)
  || Nat.eqb n 133 || Nat.eqb n 160.

Fixpoint lstrip (s : string) : string :=
  match s with
  | EmptyString => EmptyString
  | String c s' => if is_space c then lstrip s' else s
  end.

Fixpoint rstrip (s : string) : string :=
  match s with
  | EmptyString => EmptyString
  | String c s' =>
      match rstrip s' with
      | EmptyString => if is_space c then EmptyString else String c EmptyString
      | r => String c r
      end
  end.

(** [s.strip()] *)
Definition strip (s : string) : string := rstrip (lstrip s).

(** [sep.join(parts)] *)
Fixpoint join (sep : string) (parts : list string) : string :=
  match parts with
  | [] => EmptyString
  | [p] => p
  | p :: ps => p +:+ sep +:+ join sep ps
  end.

(** [s.split(sep)] for a one-character separator: the pieces between the
    occurrences of [sep]; never empty. *)
Fixpoint split (sep : ascii) (s : string) : list string :=
  match s with
  | EmptyString => [EmptyString]
  | String c s' =>
      if Ascii.eqb c sep then EmptyString :: split sep s'
      else match split sep s' with
           | p :: ps => String c p :: ps
           | [] => [String c EmptyString]
           end
  end.

(** [l[i]] for [i >= 0] *)
Definition index {A} (l : list A) (i : nat) : result A :=
  match l !! i with
  | Some x => Ok x
  | None => Raise IndexError
  end.

(** [l[-1]] *)
Definition index_last {A} (l : list A) : result A :=
  match last l with
  | Some x => Ok x
  | None => Raise IndexError
  end.

(** [l[::2]] *)
Fixpoint slice_even {A} (l : list A) : list A :=
  match l with
  | [] => []
  | x :: l' =>
      x :: match l' with
           | [] => []
           | _ :: l'' => slice_even l''
           end
  end.

(** [l[1::2]] *)
Definition slice_odd {A} (l : list A) : list A :=
  match l with
  | [] => []
  | _ :: l' => slice_even l'
  end.

(** A [Dict[str, V]]: insertion order, distinct keys. *)
Definition dict (V : Type) := list (string * V).

Fixpoint dict_find {V} (d : dict V) (k : string) : option V :=
  match d with
  | [] => None
  | (k', v) :: d' => if String.eqb k' k then Some v else dict_find d' k
  end.

(** [d[k]] *)
Definition getitem {V} (d : dict V) (k : string) : result V :=
  match dict_find d k with
  | Some v => Ok v
  | None => Raise (KeyError (VStr k))
  end.

End Py.

Import Py.

#[export] Instance result_bind : MBind result := fun A B k m => bind m k.
#[export] Instance result_ret : MRet result := fun A a => Ok a.

(** ** Instruction formatting *)

(** The loop of [format_instructions] over the zipped (user, answer) pairs,
    extending the list [prompt]. *)
Fixpoint format_pairs (pairs : list (dict string * dict string))
    (prompt : list string) : result (list string) :=
  match pairs with
  | [] => Ok prompt
  | (user, answer) :: rest =>
      u ← getitem user "content";
      a ← getitem answer "content";
      format_pairs rest
        (prompt ++ ["<s>"; "[INST] "; strip u; " [/INST] "; strip a; "</s>"])
  end.

Definition format_instructions (instructions : list (dict string))
    : result string :=
  prompt ← format_pairs
              (zip (slice_even instructions) (slice_odd instructions)) [];
  final ← index_last instructions;
  c ← getitem final "content";
  Ok (join "" (prompt ++ ["<s>"; "[INST] "; strip c; " [/INST] "])).

Definition msg (role content : string) : dict string :=
  [("role", role); ("content", content)].

(** ** [float(str)] *)

Definition is_digit (c : ascii) : bool :=
  let n := nat_of_ascii c in Nat.leb 48 n && Nat.leb n 57.

Definition digit_val (c : ascii) : N := N.of_nat (nat_of_ascii c - 48).

(** ASCII lower case of one character, as the comparison of [inf] and
    [nan] ignores case. *)
Definition lower (c : ascii) : ascii :=
  let n := nat_of_ascii c in
  if Nat.leb 65 n && Nat.leb n 90 then ascii_of_nat (n + 32) else c.

Fixpoint lower_str (s : string) : string :=
  match s with
  | EmptyString => EmptyString
  | String c s' => String (lower c) (lower_str s')
  end.

(** An underscore is accepted only between two digits; [prev] is the
    character before [s]. *)
Fixpoint underscores_ok (prev : option ascii) (s : string) : bool :=
  match s with
  | EmptyString =>
      match prev with
      | Some p => negb (Ascii.eqb p "_")
      | None => true
      end
  | String c s' =>
      let after_digit :=
        match prev with Some p => is_digit p | None => false end in
      let after_underscore :=
        match prev with Some p => Ascii.eqb p "_" | None => false end in
      (if Ascii.eqb c "_" then after_digit
       else if after_underscore then is_digit c else true)
      && underscores_ok (Some c) s'
  end.

Fixpoint remove_underscores (s : string) : string :=
  match s with
  | EmptyString => EmptyString
  | String c s' =>
      if Ascii.eqb c "_" then remove_underscores s'
      else String c (remove_underscores s')
  end.

(** Reads the leading decimal digits of [s] onto the number [acc]; returns
    the number, how many digits were read, and the rest. *)
Fixpoint take_digits (s : string) (acc : N) (count : nat) : N * nat * string :=
  match s with
  | String c s' =>
      if is_digit c then take_digits s' (acc * 10 + digit_val c)%N (S count)
      else (acc, count, s)
  | EmptyString => (acc, count, s)
  end.

(** An optional sign: whether it is a minus, and the rest. *)
Definition take_sign (s : string) : bool * string :=
  match s with
  | String "-" s' => (true, s')
  | String "+" s' => (false, s')
  | _ => (false, s)
  end.

(** A decimal literal: digits, an optional point and digits (at least one
    digit on one side), an optional exponent; nothing may follow. *)
Definition parse_decimal (s : string) : option (N * Z) :=
  let '(m1, n1, r1) := take_digits s 0%N 0 in
  let '(m2, n2, r2) :=
    match r1 with
    | String "." r => take_digits r m1 0
    | _ => (m1, 0, r1)
    end in
  if Nat.eqb (n1 + n2) 0 then None
  else
    match r2 with
    | EmptyString => Some (m2, (- Z.of_nat n2)%Z)
    | String c r3 =>
        if Ascii.eqb (lower c) "e" then
          let '(eneg, r4) := take_sign r3 in
          let '(ex, n3, r5) := take_digits r4 0%N 0 in
          if Nat.eqb n3 0 then None
          else
            match r5 with
            | EmptyString =>
                Some (m2, ((if eneg then - Z.of_N ex else Z.of_N ex)
                           - Z.of_nat n2)%Z)
            | _ => None
            end
        else None
    end.

(** [float(x)] for a string [x]. *)
Definition py_float (x : string) : result pyfloat :=
  let s := strip x in
  if negb (underscores_ok None s) then Raise (ValueError x)
  else
    let '(neg, body) := take_sign (remove_underscores s) in
    let word := lower_str body in
    if String.eqb word "inf" || String.eqb word "infinity" then Ok (FInf neg)
    else if String.eqb word "nan" then Ok FNan
    else
      match parse_decimal body with
      | Some (m, e) => Ok (FDec neg m e)
      | None => Raise (ValueError x)
      end.

(** [f == 0.0] after rounding to binary64 (round to nearest, ties to even):
    a decimal is zero when it is at most 2^-1075 in magnitude. *)
Definition float_is_zero (f : pyfloat) : bool :=
  match f with
  | FDec _ m e =>
      N.eqb m 0
      || (Z.ltb e 0 && Z.leb (Z.of_N m * 2 ^ 1075) (10 ^ (- e)))
  | _ => false
  end.

(** ** Document loading *)

(** [f.readlines()]: the lines of the text, each with its line feed. *)
Fixpoint readlines (text : string) : list string :=
  match text with
  | EmptyString => []
  | String c rest =>
      if Ascii.eqb c (ascii_of_nat 10) then String c EmptyString :: readlines rest
      else match readlines rest with
           | [] => [String c EmptyString]
           | l :: ls => String c l :: ls
           end
  end.

Record Metadata := {
  movie_id : string;
  rating : pyfloat;
  genres : list string;
  spoken_languages : list string;
  release_date : string;
  cast : list string
}.

Record Document := {
  page_content : string;
  metadata : Metadata
}.

(** [lines[i].split(":")[1].strip()] *)
Definition field (lines : list string) (i : nat) : result string :=
  line ← index lines i;
  v ← index (split ":" line) 1;
  Ok (strip v).

(** The body of the loading loop for one file, given the text that
    [open(file, "r")] reads. *)
Definition load_file (text : string) : result Document :=
  let lines := readlines text in
  movie_id ← field lines 0;
  title ← field lines 1;
  genres ← field lines 2;
  spoken_languages ← field lines 3;
  release_date ← field lines 4;
  rating ← field lines 5;
  let rating := if String.eqb rating "nan" then "0" else rating in
  cast ← field lines 6;
  overview ← field lines 7;
  let content := join "" lines in
  r ← py_float rating;
  Ok {| page_content := content;
        metadata := {| movie_id := movie_id;
                       rating := r;
                       genres := split "," genres;
                       spoken_languages := split "," spoken_languages;
                       release_date := release_date;
                       cast := split "," cast |} |}.

(** The loop over the files: [docs] grows by one document per file; an
    exception leaves the loop, and the cell, with the documents appended so
    far. *)
Fixpoint load_loop (files : list string) (docs : list Document)
    : list Document * option exn :=
  match files with
  | [] => (docs, None)
  | text :: rest =>
      match load_file text with
      | Ok doc => load_loop rest (docs ++ [doc])
      | Raise e => (docs, Some e)
      end
  end.

Definition load_docs (files : list string) : list Document * option exn :=
  load_loop files [].

(** ** [json.dumps] *)

Definition hex_digit (n : nat) : ascii :=
  if Nat.ltb n 10 then ascii_of_nat (48 + n) else ascii_of_nat (87 + n).

(** One character of a JSON string under [ensure_ascii]: the short escapes,
    and a four-digit escape for everything outside space .. tilde. *)
Definition escape_char (c : ascii) : string :=
  let n := nat_of_ascii c in
  if Nat.eqb n 34 then String "\" DQ
  else if Nat.eqb n 92 then "\\"
  else if Nat.eqb n 10 then "\n"
  else if Nat.eqb n 13 then "\r"
  else if Nat.eqb n 9 then "\t"
  else if Nat.eqb n 12 then "\f"
  else if Nat.eqb n 8 then "\b"
  else if Nat.leb 32 n && Nat.leb n 126 then String c EmptyString
  else "\u00" +:+ String (hex_digit (n / 16))
                    (String (hex_digit (n mod 16)) EmptyString).

Fixpoint escape_str (s : string) : string :=
  match s with
  | EmptyString => EmptyString
  | String c s' => escape_char c +:+ escape_str s'
  end.

Definition dumps_str (s : string) : string := DQ +:+ escape_str s +:+ DQ.

Definition int_repr (z : Z) : string := NilZero.string_of_int (Z.to_int z).

Fixpoint zeros (n : nat) : string :=
  match n with
  | O => EmptyString
  | S n' => String "0" (zeros n')
  end.

(** Drops the zeros at the end of a digit string; returns what is left and
    how many were dropped. *)
Fixpoint drop_trailing_zeros (s : string) : string * nat :=
  match s with
  | EmptyString => (EmptyString, 0)
  | String c s' =>
      match drop_trailing_zeros s' with
      | (EmptyString, k) =>
          if Ascii.eqb c "0" then (EmptyString, S k)
          else (String c EmptyString, k)
      | (r, k) => (String c r, k)
      end
  end.

(** The first [n] characters of [s] and the rest. *)
Fixpoint split_at (n : nat) (s : string) : string * string :=
  match n, s with
  | S n', String c s' =>
      let '(a, b) := split_at n' s' in (String c a, b)
  | _, _ => (EmptyString, s)
  end.

(** [float.__repr__] as [json] writes it. The digits are those of the
    decimal, which are the shortest that read back to the same binary64 for
    every decimal of at most 15 significant digits in the normal range. *)
Definition float_repr (f : pyfloat) : string :=
  match f with
  | FNan => "NaN"
  | FInf false => "Infinity"
  | FInf true => "-Infinity"
  | FDec neg m e =>
      let sign := if neg then "-" else "" in
      if N.eqb m 0 then sign +:+ "0.0"
      else
        let '(digits, k) :=
          drop_trailing_zeros (NilZero.string_of_uint (N.to_uint m)) in
        let n := String.length digits in
        let decpt := (Z.of_nat n + Z.of_nat k + e)%Z in
        if Z.leb decpt (-4) || Z.ltb 16 decpt then
          let '(d1, ds) := split_at 1 digits in
          let ex := (decpt - 1)%Z in
          let exs := NilZero.string_of_uint (N.to_uint (Z.to_N (Z.abs ex))) in
          sign +:+ d1
          +:+ (match ds with EmptyString => "" | _ => "." +:+ ds end)
          +:+ "e" +:+ (if Z.ltb ex 0 then "-" else "+")
          +:+ (if Nat.ltb (String.length exs) 2 then "0" +:+ exs else exs)
        else if Z.leb decpt 0 then
          sign +:+ "0." +:+ zeros (Z.to_nat (- decpt)) +:+ digits
        else if Z.leb (Z.of_nat n) decpt then
          sign +:+ digits +:+ zeros (Z.to_nat decpt - n) +:+ ".0"
        else
          let '(a, b) := split_at (Z.to_nat decpt) digits in
          sign +:+ a +:+ "." +:+ b
  end.

(** [json.dumps(v)] with the default separators. *)
Fixpoint dumps (v : pyval) : string :=
  match v with
  | VNone => "null"
  | VBool true => "true"
  | VBool false => "false"
  | VInt z => int_repr z
  | VFloat f => float_repr f
  | VStr s => dumps_str s
  | VList l => "[" +:+ join ", " (List.map dumps l) +:+ "]"
  | VDict d =>
      "{" +:+ join ", "
                (List.map (fun kv => dumps_str (fst kv) +:+ ": " +:+ dumps (snd kv)) d)
      +:+ "}"
  end.

(** [s.encode('utf-8')] for code points below 256. *)
Definition byte_of_nat (n : nat) : Byte.byte :=
  match Byte.of_N (N.of_nat n) with
  | Some b => b
  | None => Byte.x00
  end.

Fixpoint encode_utf8 (s : string) : list Byte.byte :=
  match s with
  | EmptyString => []
  | String c s' =>
      let n := nat_of_ascii c in
      if Nat.ltb n 128 then byte_of_nat n :: encode_utf8 s'
      else byte_of_nat (192 + n / 64) :: byte_of_nat (128 + n mod 64)
             :: encode_utf8 s'
  end.

(** ** The SageMaker content handler *)

(** [v[k]] on the values [json.loads] returns. *)
Definition int_index {A} (l : list A) (i : Z) : result A :=
  let j := if Z.ltb i 0 then (Z.of_nat (length l) + i)%Z else i in
  if Z.ltb j 0 then Raise IndexError else index l (Z.to_nat j).

Definition as_index (k : pyval) : option Z :=
  match k with
  | VInt i => Some i
  | VBool b => Some (if b then 1 else 0)%Z
  | _ => None
  end.

Fixpoint chars (s : string) : list pyval :=
  match s with
  | EmptyString => []
  | String c s' => VStr (String c EmptyString) :: chars s'
  end.

Definition subscript (v k : pyval) : result pyval :=
  match v with
  | VList l =>
      match as_index k with
      | Some i => int_index l i
      | None => Raise TypeError
      end
  | VStr s =>
      match as_index k with
      | Some i => int_index (chars s) i
      | None => Raise TypeError
      end
  | VDict d =>
      match k with
      | VStr key => getitem d key
      | VList _ | VDict _ => Raise TypeError
      | _ => Raise (KeyError k)
      end
  | _ => Raise TypeError
  end.

Definition system_message : dict pyval :=
  [("role", VStr "system"); ("content", VStr "You are a movie assistant.")].

Definition user_message (prompt : string) : dict pyval :=
  [("role", VStr "user"); ("content", VStr prompt)].

(** [SMLLMContentHandler.transform_input] *)
Definition transform_input (prompt : string) (model_kwargs : dict pyval)
    : list Byte.byte :=
  let input_data :=
    dumps (VList [VList [VDict system_message; VDict (user_message prompt)]]) in
  let input_str :=
    dumps (VDict [("inputs", VStr input_data);
                  ("parameters", VDict model_kwargs)]) in
  encode_utf8 input_str.

(** [SMLLMContentHandler.transform_output], from the value [response_json]
    that [json.loads] returns for the body. *)
Definition transform_output (response_json : pyval) : result pyval :=
  first ← subscript response_json (VInt 0);
  subscript first (VStr "generated_text").

(** The configured [model_params]. *)
Definition model_params : dict pyval :=
  [("do_sample", VBool true);
   ("top_p", VFloat (FDec false 9 (-1)));
   ("temperature", VFloat (FDec false 1 (-1)));
   ("max_new_tokens", VInt 1000);
   ("stop", VList [VStr "<|endoftext|>"; VStr "</s>"]);
   ("repetition_penalty", VFloat (FDec false 11 (-1)))].

(** ** The prompt template *)

(** [template.format] with keyword arguments, for templates whose replacement fields are
    plain names: text is copied, doubled braces stand for one brace, and
    [{name}] is replaced by the value of [name]. [field] is the name read so
    far inside an open brace. A field with a conversion, a format
    specification or attribute or index access is outside this model and is
    reported as [ValueError]. *)
Definition field_char_ok (c : ascii) : bool :=
  negb (Ascii.eqb c "!" || Ascii.eqb c ":" || Ascii.eqb c "."
        || Ascii.eqb c "[" || Ascii.eqb c "{").

Fixpoint all_digits (s : string) : bool :=
  match s with
  | EmptyString => true
  | String c s' => is_digit c && all_digits s'
  end.

(** The value of a replacement field: a name is looked up among the
    keyword arguments; an empty or numeric field is positional, and there
    are no positional arguments. *)
Definition get_value (name : string) (kwargs : dict string) : result string :=
  if all_digits name then Raise IndexError else getitem kwargs name.

Fixpoint format_from (tmpl : string) (field : option string)
    (kwargs : dict string) : result string :=
  match field with
  | None =>
      match tmpl with
      | EmptyString => Ok EmptyString
      | String "{" (String "{" rest) =>
          r ← format_from rest None kwargs; Ok (String "{" r)
      | String "{" rest => format_from rest (Some EmptyString) kwargs
      | String "}" (String "}" rest) =>
          r ← format_from rest None kwargs; Ok (String "}" r)
      | String "}" _ => Raise (ValueError tmpl)
      | String c rest =>
          r ← format_from rest None kwargs; Ok (String c r)
      end
  | Some name =>
      match tmpl with
      | EmptyString => Raise (ValueError name)
      | String "}" rest =>
          v ← get_value name kwargs;
          r ← format_from rest None kwargs;
          Ok (v +:+ r)
      | String c rest =>
          if field_char_ok c
          then format_from rest (Some (name +:+ String c EmptyString)) kwargs
          else Raise (ValueError name)
      end
  end.

Definition format (tmpl : string) (kwargs : dict string) : result string :=
  format_from tmpl None kwargs.

Definition prompt_template : string :=
  strip (join LF [
    "Given the following context and conversation history:";
    "";
    "Context: ";
    "{context}";
    "";
    "";
    "Conversation History: ";
    "{chat_history}";
    "";
    "Answer the question as truthfully as possible. Your answer must only be coming from the context given above. If the answer is not found in the given context. Say "
      +:+ DQ +:+ "I don't know" +:+ DQ;
    "Your answer must be in a summary and direct in a concise manner. It's critical that you are only allowed to use the context given to you in answering the question.";
    "";
    "User question: {question}"]).

(** [PROMPT.format] with the keyword arguments [kwargs] *)
Definition PROMPT_format (kwargs : dict string) : result string :=
  format prompt_template kwargs.

(** ** The conversational chain and its memory *)

(** The messages held by [ConversationBufferMemory] with
    [return_messages=True]. *)
Inductive message :=
| HumanMessage (content : string)
| AIMessage (content : string).

(** What retrieval and generation give for one question. *)
Inductive outcome :=
| Answer (a : string)
| Raised (e : exn).

(** The retriever and the endpoint behind the chain: from the chat history
    and the question to the outcome. *)
Definition services := list message -> string -> outcome.

(** [qa({"question": question})] for the [ConversationalRetrievalChain]
    built with the buffer memory (library code): the chain reads the memory
    into its inputs, runs retrieval and generation, and when these return it
    saves the question and the answer to the memory; an exception of theirs
    propagates before anything is saved. Returns the memory and
    [response['answer']]. *)
Definition qa_call (llm : services) (memory : list message) (question : string)
    : list message * result string :=
  match llm memory question with
  | Answer a => (memory ++ [HumanMessage question; AIMessage a], Ok a)
  | Raised e => (memory, Raise e)
  end.

(** ** The chat widget loop *)

Inductive widget :=
| WText (value : string) (disabled : bool)
| WButton (disabled : bool)
| WLabel (value : string).

(** What the output area shows: printed lines, the text of a printed
    exception, and displayed widgets. *)
Inductive out_item :=
| Printed (s : string)
| PrintedExn (e : exn)
| Displayed (ws : list nat).

(** One invocation of the chain, as observed from outside. *)
Record call := {
  history : list message;
  question : string;
  reply : outcome
}.

(** The state of a [ChatUX] object, with the widgets it created in
    [widgets] (referred to by position) and the memory of its chain.
    [calls] records the invocations of [self.qa]. *)
Record ChatUX := {
  memory : list message;
  calls : list call;
  name : option nat;
  b : option nat;
  out : list out_item;
  stdout : list string;
  widgets : list widget
}.

Definition set_disabled (w : widget) : widget :=
  match w with
  | WText v _ => WText v true
  | WButton _ => WButton true
  | WLabel v => WLabel v
  end.

Definition set_value (s : string) (w : widget) : widget :=
  match w with
  | WText _ d => WText s d
  | WButton d => WButton d
  | WLabel _ => WLabel s
  end.

(** [ChatUX.__init__] *)
Definition init : ChatUX :=
  {| memory := []; calls := []; name := None; b := None;
     out := []; stdout := []; widgets := [] |}.

(** [self.name.value] *)
Definition name_value (self : ChatUX) (r : nat) : result string :=
  match widgets self !! r with
  | Some (WText v _) => Ok v
  | _ => Raise AttributeError
  end.

Definition is_quit (prompt : string) : bool :=
  String.eqb "q" prompt || String.eqb "quit" prompt || String.eqb "Q" prompt.

(** The [elif len(prompt) > 0] branch of [chat]. *)
Definition processing (llm : services) (prompt : string) (self : ChatUX)
    : result ChatUX :=
  let thinking := length (widgets self) in
  let ws1 := widgets self ++ [WLabel "Thinking..."] in
  let out1 := out self ++ [Displayed [thinking]] in
  let '(memory1, response) := qa_call llm (memory self) prompt in
  let calls1 :=
    calls self ++ [{| history := memory self; question := prompt;
                      reply := llm (memory self) prompt |}] in
  let '(out2, result) :=
    match response with
    | Ok answer => (out1, answer)
    | Raise e => (out1 ++ [PrintedExn e], "No answer")
    end in
  let ws2 := alter (set_value "") thinking ws1 in
  let out3 := out2 ++ [Printed ("AI: " +:+ result)] in
  match name self, b self with
  | Some t, Some btn =>
      Ok {| memory := memory1; calls := calls1; name := None; b := Some btn;
            out := out3; stdout := stdout self;
            widgets := alter set_disabled btn (alter set_disabled t ws2) |}
  | _, _ => Raise AttributeError
  end.

(** The last [if self.name is None] block of [chat]. *)
Definition new_input (self : ChatUX) : ChatUX :=
  let t := length (widgets self) in
  {| memory := memory self; calls := calls self;
     name := Some t; b := Some (S t);
     out := out self ++ [Displayed [t; S t]]; stdout := stdout self;
     widgets := widgets self ++ [WText "" false; WButton false] |}.

(** [ChatUX.chat] *)
Definition chat (llm : services) (self : ChatUX) : result ChatUX :=
  prompt ← match name self with
           | None => Ok ""
           | Some r => name_value self r
           end;
  if is_quit prompt then
    Ok {| memory := memory self; calls := calls self;
          name := name self; b := b self; out := out self;
          stdout := stdout self ++ ["Thank you , that was a nice chat !!"];
          widgets := widgets self |}
  else
    self1 ← (if Nat.ltb 0 (String.length prompt)
             then processing llm prompt self else Ok self);
    Ok (match name self1 with
        | None => new_input self1
        | Some _ => self1
        end).

(** [ChatUX.start_chat] *)
Definition start_chat (llm : services) (self : ChatUX) : result ChatUX :=
  chat llm
    {| memory := memory self; calls := calls self;
       name := name self; b := b self; out := out self;
       stdout := stdout self ++ ["Let's chat!"];
       widgets := widgets self |}.

(** What the user can do with the displayed widgets: edit a text box, or
    press a button, which runs [chat]; a disabled widget does not
    react. The services' behaviour at the time of the press comes with it. *)
Inductive event :=
| Edit (w : nat) (s : string)
| Press (w : nat) (llm : services).

Definition step (ev : event) (self : ChatUX) : result ChatUX :=
  match ev with
  | Edit w s =>
      match widgets self !! w with
      | Some (WText _ false) =>
          Ok {| memory := memory self; calls := calls self;
                name := name self; b := b self; out := out self;
                stdout := stdout self;
                widgets := alter (set_value s) w (widgets self) |}
      | _ => Ok self
      end
  | Press w llm =>
      match widgets self !! w with
      | Some (WButton false) => chat llm self
      | _ => Ok self
      end
  end.

Fixpoint run (evs : list event) (self : ChatUX) : result ChatUX :=
  match evs with
  | [] => Ok self
  | ev :: rest => self' ← step ev self; run rest self'
  end.

(** The messages the memory holds after the given invocations: one pair
    per answered one, in order. *)
Definition saved (c : call) : list message :=
  match reply c with
  | Answer a => [HumanMessage (question c); AIMessage a]
  | Raised _ => []
  end.

Definition replay (cs : list call) : list message := concat (List.map saved cs).

Definition answered (c : call) : bool :=
  match reply c with Answer _ => true | Raised _ => false end.

(** ** Creating the OpenSearch Serverless collection *)

(** The requests the function sends, and its waits. *)
Inductive request :=
| GetCallerIdentity
| CreateSecurityPolicy (name policy type : string)
| CreateCollection (name type : string)
| ListCollections (name : string)
| Sleep (seconds : nat)
| CreateAccessPolicy (name policy type : string).

(** ['createCollectionDetail'] of the response to [create_collection]. *)
Record collection_detail := {
  detail_id : string;
  detail_arn : string
}.

(** What the account and the process answer during one run: the ['Arn'] of
    the caller identity, the outcome of each creation, the ['status'] of
    each entry of ['collectionSummaries'] at the n-th listing, and the
    environment variable AWS_DEFAULT_REGION. A [Raise] is the exception of
    a failed request. The clients themselves are taken as built. *)
Record aws := {
  caller_identity : result string;
  encryption_response : result unit;
  network_response : result unit;
  collection_response : result collection_detail;
  statuses : nat -> result (list string);
  access_response : result unit;
  default_region : option string
}.

(** A run so far: the requests sent, in order, and how it ended; [None]
    when it is still waiting after the given number of listings. *)
Definition prog (A : Type) : Type := list request * option (result A).

Definition send {A B} (req : request) (resp : result A) (k : A -> prog B)
    : prog B :=
  match resp with
  | Ok a => (req :: fst (k a), snd (k a))
  | Raise e => ([req], Some (Raise e))
  end.

Definition after {B} (req : request) (p : prog B) : prog B :=
  (req :: fst p, snd p).

(** [status in ('ACTIVE', 'FAILED')] *)
Definition settled (status : string) : bool :=
  String.eqb status "ACTIVE" || String.eqb status "FAILED".

(** The [while True] loop, from the n-th listing on, followed by [k];
    [fuel] bounds the number of listings. *)
Fixpoint wait_until_settled {B} (env : aws) (name : string) (n fuel : nat)
    (k : prog B) : prog B :=
  match fuel with
  | O => ([], None)
  | S fuel' =>
      send (ListCollections name) (statuses env n)
        (fun summaries =>
           match index summaries 0 with
           | Raise e => ([], Some (Raise e))
           | Ok status =>
               if settled status then k
               else after (Sleep 10)
                      (wait_until_settled env name (S n) fuel' k)
           end)
  end.

Definition collection_rule (vector_store_name : string) : pyval :=
  VDict [("Resource", VList [VStr ("collection/" +:+ vector_store_name)]);
         ("ResourceType", VStr "collection")].

Definition encryption_policy (vector_store_name : string) : pyval :=
  VDict [("Rules", VList [collection_rule vector_store_name]);
         ("AWSOwnedKey", VBool true)].

Definition network_policy (vector_store_name : string) : pyval :=
  VList [VDict [("Rules", VList [collection_rule vector_store_name]);
                ("AllowFromPublic", VBool true)]].

Definition access_policy (vector_store_name identity : string) : pyval :=
  VList [VDict [
    ("Rules", VList [
       VDict [("Resource", VList [VStr ("collection/" +:+ vector_store_name)]);
              ("Permission", VList [VStr "aoss:CreateCollectionItems";
                                    VStr "aoss:DeleteCollectionItems";
                                    VStr "aoss:UpdateCollectionItems";
                                    VStr "aoss:DescribeCollectionItems"]);
              ("ResourceType", VStr "collection")];
       VDict [("Resource",
               VList [VStr (("index/" +:+ vector_store_name) +:+ "/*")]);
              ("Permission", VList [VStr "aoss:CreateIndex";
                                    VStr "aoss:DeleteIndex";
                                    VStr "aoss:UpdateIndex";
                                    VStr "aoss:DescribeIndex";
                                    VStr "aoss:ReadDocument";
                                    VStr "aoss:WriteDocument"]);
              ("ResourceType", VStr "index")]]);
    ("Principal", VList [VStr identity]);
    ("Description", VStr "Easy data policy")]].

(** The end of the function: the host name is put together from the
    collection id and the region; a missing region is [None], which cannot
    be added to a string. *)
Definition host_and_ids (env : aws) (collection : collection_detail)
    : prog (string * string * string) :=
  let collection_id := detail_id collection in
  let collection_arn := detail_arn collection in
  match default_region env with
  | Some region =>
      ([], Some (Ok (((collection_id +:+ ".") +:+ region)
                       +:+ ".aoss.amazonaws.com",
                     collection_id, collection_arn)))
  | None => ([], Some (Raise TypeError))
  end.

Definition create_opensearch_serverless_collection (env : aws) (fuel : nat)
    (vector_store_name index_name encryption_policy_name
     network_policy_name access_policy_name : string)
    : prog (string * string * string) :=
  send GetCallerIdentity (caller_identity env) (fun identity =>
  send (CreateSecurityPolicy encryption_policy_name
          (dumps (encryption_policy vector_store_name)) "encryption")
       (encryption_response env) (fun _ =>
  send (CreateSecurityPolicy network_policy_name
          (dumps (network_policy vector_store_name)) "network")
       (network_response env) (fun _ =>
  send (CreateCollection vector_store_name "VECTORSEARCH")
       (collection_response env) (fun collection =>
  wait_until_settled env vector_store_name 0 fuel
    (send (CreateAccessPolicy access_policy_name
             (dumps (access_policy vector_store_name identity)) "data")
          (access_response env) (fun _ =>
     host_and_ids env collection)))))).

(** ** Printing the source documents *)

(** [s.replace(old, new)] for one-character [old] and [new]. *)
Fixpoint replace_char (old new : ascii) (s : string) : string :=
  match s with
  | EmptyString => EmptyString
  | String c s' =>
      String (if Ascii.eqb c old then new else c) (replace_char old new s')
  end.

(** The loop over [enumerate(result['source_documents'])], from the index
    [idx] on: the lines it prints. *)
Fixpoint print_sources_from (idx : nat) (docs : list Document) : list string :=
  match docs with
  | [] => []
  | doc :: rest =>
      ("=== doc " +:+ int_repr (Z.of_nat (idx + 1)) +:+ " ====")
      :: replace_char (ascii_of_nat 10) " " (page_content doc)
      :: print_sources_from (S idx) rest
  end.

Definition print_sources (docs : list Document) : list string :=
  print_sources_from 0 docs.

(** ** Vocabulary of the statements *)

(** Whether the character [c] occurs in [s]. *)
Fixpoint has_char (c : ascii) (s : string) : bool :=
  match s with
  | EmptyString => false
  | String c' s' => Ascii.eqb c' c || has_char c s'
  end.

(** A file the loop can read through: each of its first eight lines exists
    and yields a value. *)
Definition well_formed (text : string) : Prop :=
  forall i, i < 8 -> exists v, field (readlines text) i = Ok v.

(** A file with fewer than eight lines, or with a line among the first
    eight that has no colon. *)
Definition malformed (text : string) : Prop :=
  length (readlines text) < 8
  \/ exists i line, i < 8 /\ readlines text !! i = Some line
                    /\ has_char ":" line = false.

(** A sample input file with the given text on its rating line. *)
Definition movie_file (rating : string) : string :=
  join LF ["Movie ID: 862";
           "Title: Toy Story";
           "Genres: Animation,Comedy,Family";
           "Spoken Languages: English";
           "Release Date: 1995-10-30";
           "Rating: " +:+ rating;
           "Cast: Tom Hanks,Tim Allen,Don Rickles";
           "Overview: Woody and Buzz learn to put aside their differences"]
  +:+ LF.

Definition has_content (d : dict string) : Prop :=
  is_Some (dict_find d "content").

(** The strings one (user, answer) pair adds to the prompt. *)
Definition turn_strings (u a : string) : list string :=
  ["<s>"; "[INST] "; strip u; " [/INST] "; strip a; "</s>"].

(** A response that has the field the decoder reads: a list whose first
    element is an object with the key "generated_text". *)
Definition has_generated_text (v : pyval) : bool :=
  match v with
  | VList (VDict d :: _) =>
      match dict_find d "generated_text" with
      | Some _ => true
      | None => false
      end
  | _ => false
  end.

(** The instructions that [transform_input] stringifies. *)
Definition instructions_of (prompt : string) : pyval :=
  VList [VList [VDict system_message; VDict (user_message prompt)]].

(** A plain word between double quotes. *)
Definition quoted (s : string) : string := DQ +:+ s +:+ DQ.

(** The three slots of the prompt template. *)
Definition slots : list string := ["context"; "chat_history"; "question"].

(** Text without braces, and a field name made of plain characters. *)
Fixpoint plain (s : string) : bool :=
  match s with
  | EmptyString => true
  | String c s' =>
      negb (Ascii.eqb c "{") && negb (Ascii.eqb c "}") && plain s'
  end.

Fixpoint name_ok (s : string) : bool :=
  match s with
  | EmptyString => true
  | String c s' => field_char_ok c && negb (Ascii.eqb c "}") && name_ok s'
  end.

(** The text of the template before, between and after its slots. *)
Definition before_context : string :=
  join LF ["Given the following context and conversation history:";
           "";
           "Context: ";
           ""].

Definition before_history : string :=
  join LF [""; ""; ""; "Conversation History: "; ""].

Definition before_question : string :=
  join LF [
    "";
    "";
    "Answer the question as truthfully as possible. Your answer must only be coming from the context given above. If the answer is not found in the given context. Say "
      +:+ DQ +:+ "I don't know" +:+ DQ;
    "Your answer must be in a summary and direct in a concise manner. It's critical that you are only allowed to use the context given to you in answering the question.";
    "";
    "User question: "].

(** The state is consistent: the current text box is a text widget of the
    store, and a button goes with it. *)
Definition wf (self : ChatUX) : Prop :=
  match name self with
  | Some t =>
      (exists v d, widgets self !! t = Some (WText v d)) /\ is_Some (b self)
  | None => True
  end.

(** The number of answered invocations, that is of completed turns. *)
Definition completed (cs : list call) : nat :=
  length (List.filter answered cs).

Definition farewell : string := "Thank you , that was a nice chat !!".

(** The state [processing] leaves behind for a question put to the chain,
    before the next input box is made. *)
Definition processed (llm : services) (prompt : string) (t btn : nat)
    (self : ChatUX) : ChatUX :=
  let thinking := length (widgets self) in
  {| memory := fst (qa_call llm (memory self) prompt);
     calls := calls self ++ [{| history := memory self; question := prompt;
                                reply := llm (memory self) prompt |}];
     name := None;
     b := Some btn;
     out := match llm (memory self) prompt with
            | Answer a =>
                (out self ++ [Displayed [thinking]])
                ++ [Printed ("AI: " +:+ a)]
            | Raised e =>
                ((out self ++ [Displayed [thinking]]) ++ [PrintedExn e])
                ++ [Printed "AI: No answer"]
            end;
     stdout := stdout self;
     widgets := alter set_disabled btn
                  (alter set_disabled t
                     (alter (set_value "") thinking
                        (widgets self ++ [WLabel "Thinking..."]))) |}.

(** Always answering services, and always failing ones. *)
Definition echo : services := fun _ q => Answer ("re: " +:+ q).
Definition down : services := fun _ _ => Raised (Failure "endpoint down").

(** The state right after [start_chat] once the user has typed [v] into the
    first input box. *)
Definition awaiting (v : string) : ChatUX :=
  {| memory := []; calls := []; name := Some 0; b := Some 1;
     out := [Displayed [0; 1]]; stdout := ["Let's chat!"];
     widgets := [WText v false; WButton false] |}.

(** Successive calls of [qa] on one chain, as the notebook cells make them:
    each call leaves its memory to the next. *)
Fixpoint qa_calls (qs : list (services * string)) (memory : list message)
    : list message :=
  match qs with
  | [] => memory
  | (llm, q) :: rest => qa_calls rest (fst (qa_call llm memory q))
  end.

(** Services that answer [a]. *)
Definition answering (a : string) : services := fun _ _ => Answer a.

(** The call that completes the turn (question, answer), and the messages
    the turn leaves. *)
Definition turn_call (turn : string * string) : services * string :=
  (answering (snd turn), fst turn).

Definition turn_messages (turn : string * string) : list message :=
  [HumanMessage (fst turn); AIMessage (snd turn)].

(** A sample file with its own title and overview and a ninth line. *)
Definition movie_file_retitled (rating : string) : string :=
  join LF ["Movie ID: 862";
           "Title: Toy Story (1995)";
           "Genres: Animation,Comedy,Family";
           "Spoken Languages: English";
           "Release Date: 1995-10-30";
           "Rating: " +:+ rating;
           "Cast: Tom Hanks,Tim Allen,Don Rickles";
           "Overview: A cowboy doll is threatened by a new spaceman figure";
           "Source: catalogue"]
  +:+ LF.

(** A list item that holds neither a comma nor a colon. *)
Definition clean_item (p : string) : Prop :=
  has_char "," p = false /\ has_char ":" p = false.

(** A value that holds no colon and no white space at either end. *)
Definition clean_value (v : string) : Prop :=
  has_char ":" v = false /\ strip v = v.

(** The stripped content of an instruction, when it has one. *)
Definition stripped_content (d : dict string) : option string :=
  strip <$> dict_find d "content".

(** The text of one (user, answer) exchange and of the final open turn. *)
Definition exchange_text (u a : string) : string :=
  "<s>[INST] " +:+ strip u +:+ " [/INST] " +:+ strip a +:+ "</s>".

Definition open_turn_text (c : string) : string :=
  "<s>[INST] " +:+ strip c +:+ " [/INST] ".

(** A dialogue as the formatter expects it: (user, answer) exchanges and a
    final user turn, each instruction with a role of its own. *)
Fixpoint dialogue (exchanges : list ((string * string) * (string * string)))
    (final : dict string) : list (dict string) :=
  match exchanges with
  | [] => [final]
  | ((ru, u), (ra, a)) :: rest => msg ru u :: msg ra a :: dialogue rest final
  end.

Fixpoint exchanges_text
    (exchanges : list ((string * string) * (string * string))) : string :=
  match exchanges with
  | [] => ""
  | ((_, u), (_, a)) :: rest => exchange_text u a +:+ exchanges_text rest
  end.

(** ** Reading back what the serializer writes *)







(** A widget that takes no input any more: a disabled text box or button,
    or a label that has been cleared. *)
Definition idle (w : widget) : bool :=
  match w with
  | WText _ d => d
  | WButton d => d
  | WLabel v => String.eqb v ""
  end.

(** The loop waits for input: the store ends with the current text box and
    its button, both enabled, and every widget before them is idle. *)
Definition awaiting_input (self : ChatUX) : Prop :=
  exists old v,
    widgets self = old ++ [WText v false; WButton false]
    /\ name self = Some (length old) /\ b self = Some (S (length old))
    /\ Forall (fun w => idle w = true) old.

(** The lines printed into the output area, in order. *)
Fixpoint printed (items : list out_item) : list string :=
  match items with
  | [] => []
  | Printed s :: rest => s :: printed rest
  | _ :: rest => printed rest
  end.

(** The exceptions printed into the output area, in order. *)
Fixpoint printed_exns (items : list out_item) : list exn :=
  match items with
  | [] => []
  | PrintedExn e :: rest => e :: printed_exns rest
  | _ :: rest => printed_exns rest
  end.

(** The reply line of an invocation, and its exception if it raised one. *)
Definition reply_line (c : call) : string :=
  "AI: " +:+ match reply c with
             | Answer a => a
             | Raised _ => "No answer"
             end.

Definition failure (c : call) : list exn :=
  match reply c with
  | Answer _ => []
  | Raised e => [e]
  end.

(** A session in which the user has an answered exchange behind them and
    has typed [v] into the current box. *)
Definition second_turn (v : string) : ChatUX :=
  {| memory := [HumanMessage "hello"; AIMessage "re: hello"];
     calls := [{| history := []; question := "hello";
                  reply := Answer "re: hello" |}];
     name := Some 3; b := Some 4;
     out := [Displayed [0; 1]; Displayed [2]; Printed "AI: re: hello";
             Displayed [3; 4]];
     stdout := ["Let's chat!"];
     widgets := [WText "hello" true; WButton true; WLabel "";
                 WText v false; WButton false] |}.

(** What the loop keeps true from one user action to the next. *)
(** The texts of the disabled text boxes, in the order of their display. *)
Fixpoint submitted (ws : list widget) : list string :=
  match ws with
  | [] => []
  | WText v true :: rest => v :: submitted rest
  | _ :: rest => submitted rest
  end.

Definition chat_inv (self : ChatUX) : Prop :=
  awaiting_input self
  /\ printed (out self) = List.map reply_line (calls self)
  /\ printed_exns (out self) = concat (List.map failure (calls self))
  /\ submitted (widgets self) = List.map question (calls self).

(** What the loop keeps true of the record of invocations. *)
Definition history_inv (self : ChatUX) : Prop :=
  wf self /\ memory self = replay (calls self)
  /\ forall i c, calls self !! i = Some c ->
                 history c = replay (take i (calls self)).

(** The requests up to the creation of the collection. *)
Definition setup_requests
    (vector_store_name encryption_policy_name network_policy_name : string)
    : list request :=
  [GetCallerIdentity;
   CreateSecurityPolicy encryption_policy_name
     (dumps (encryption_policy vector_store_name)) "encryption";
   CreateSecurityPolicy network_policy_name
     (dumps (network_policy vector_store_name)) "network";
   CreateCollection vector_store_name "VECTORSEARCH"].

(** [n] listings each followed by a wait of ten seconds. *)
Fixpoint waits (name : string) (n : nat) : list request :=
  match n with
  | O => []
  | S n' => ListCollections name :: Sleep 10 :: waits name n'
  end.

(** Everything before the listings answers, and the listings [m] to
    [m + n - 1] show a collection that is not settled yet. *)
Definition creations_succeed (env : aws) (identity : string)
    (collection : collection_detail) : Prop :=
  caller_identity env = Ok identity
  /\ encryption_response env = Ok tt /\ network_response env = Ok tt
  /\ collection_response env = Ok collection.

Definition unsettled_for (env : aws) (m n : nat) : Prop :=
  forall i, i < n ->
    exists status others,
      statuses env (m + i) = Ok (status :: others) /\ settled status = false.

(** An account in which the collection is being created during the first
    two listings and then reaches [final]; [region] is the environment
    variable. *)
Definition sample_account (final : list string) (region : option string) : aws :=
  {| caller_identity := Ok "arn:aws:iam::123456789012:user/ws";
     encryption_response := Ok tt;
     network_response := Ok tt;
     collection_response :=
       Ok {| detail_id := "abc123";
             detail_arn := "arn:aws:aoss:us-east-1:123456789012:collection/abc123" |};
     statuses := fun n => if Nat.ltb n 2 then Ok ["CREATING"] else Ok final;
     access_response := Ok tt;
     default_region := region |}.

(** An account in which the collection never settles. *)
Definition stuck_account : aws :=
  {| caller_identity := Ok "arn:aws:iam::123456789012:user/ws";
     encryption_response := Ok tt;
     network_response := Ok tt;
     collection_response :=
       Ok {| detail_id := "abc123";
             detail_arn := "arn:aws:aoss:us-east-1:123456789012:collection/abc123" |};
     statuses := fun _ => Ok ["CREATING"];
     access_response := Ok tt;
     default_region := Some "us-east-1" |}.

Definition count_sleeps (trace : list request) : nat :=
  length (List.filter (fun r => match r with Sleep _ => true | _ => false end)
            trace).

(** A text of ASCII characters only. *)
Fixpoint all_ascii (s : string) : bool :=
  match s with
  | EmptyString => true
  | String c s' => Nat.ltb (nat_of_ascii c) 128 && all_ascii s'
  end.

(** * Properties *)

(** ** Strings and results *)

Lemma str_app_cons (c : ascii) (s t : string) :
  String c s +:+ t = String c (s +:+ t).
Proof. reflexivity. Qed.

Lemma str_app_nil_l (s : string) : "" +:+ s = s.
Proof. reflexivity. Qed.

Lemma str_app_nil_r (s : string) : s +:+ "" = s.
Proof. induction s as [|c s IH]; [reflexivity|]. by rewrite str_app_cons, IH. Qed.

Lemma str_app_assoc (s t u : string) : (s +:+ t) +:+ u = s +:+ t +:+ u.
Proof.
  induction s as [|c s IH]; [reflexivity|].
  by rewrite !str_app_cons, IH.
Qed.

Lemma join_empty_cons (p : string) (ps : list string) :
  join "" (p :: ps) = p +:+ join "" ps.
Proof.
  destruct ps as [|q ps]; simpl.
  - by rewrite str_app_nil_r.
  - reflexivity.
Qed.

Lemma join_empty_app (l1 l2 : list string) :
  join "" (l1 ++ l2) = join "" l1 +:+ join "" l2.
Proof.
  induction l1 as [|p l1 IH]; [reflexivity|].
  rewrite <- app_comm_cons, !join_empty_cons, IH.
  by rewrite str_app_assoc.
Qed.

Lemma bind_Ok {A B} (a : A) (k : A -> result B) : (x ← Ok a; k x) = k a.
Proof. reflexivity. Qed.

Lemma bind_Raise {A B} (e : exn) (k : A -> result B) :
  (x ← Raise e; k x) = Raise e.
Proof. reflexivity. Qed.

Lemma getitem_Some {V} (d : dict V) (k : string) (v : V) :
  dict_find d k = Some v -> getitem d k = Ok v.
Proof. unfold getitem. by intros ->. Qed.

Lemma getitem_None {V} (d : dict V) (k : string) :
  dict_find d k = None -> getitem d k = Raise (KeyError (VStr k)).
Proof. unfold getitem. by intros ->. Qed.

(** ** Instruction formatting *)

Section InstructionFormat.

(** Induction over a list two elements at a time, as the slices walk it. *)
Lemma pairwise_ind {A} (P : list A -> Prop) :
  P [] -> (forall a, P [a]) -> (forall a b l, P l -> P (a :: b :: l)) ->
  forall l, P l.
Proof.
  intros Hnil Hone Hstep.
  assert (H : forall l, P l /\ forall a, P (a :: l)).
  { induction l as [|x l [IH1 IH2]]; split; auto. }
  intros l. apply H.
Qed.

Lemma slices_cons_cons {A} (a b : A) (l : list A) :
  zip (slice_even (a :: b :: l)) (slice_odd (a :: b :: l))
  = (a, b) :: zip (slice_even l) (slice_odd l).
Proof. destruct l; reflexivity. Qed.

(** The loop succeeds on dicts that all have a content; on a list of even
    length the strings it adds end with the content of the last element. *)
Lemma format_pairs_slices (l : list (dict string)) :
  Forall has_content l ->
  forall acc, exists r,
    format_pairs (zip (slice_even l) (slice_odd l)) acc = Ok (acc ++ r)
    /\ (Nat.Even (length l) -> forall final c,
          last l = Some final -> dict_find final "content" = Some c ->
          exists r', r = r' ++ [strip c; "</s>"]).
Proof.
  induction l as [| a | a b l IH] using pairwise_ind; intros Hall acc.
  - exists []. split; [by rewrite app_nil_r|]. intros _ final c Hl. discriminate.
  - exists []. split; [by rewrite app_nil_r|].
    intros [k Hk]. simpl in Hk. lia.
  - inversion Hall as [|? ? [ca Ha] Hall']; subst.
    inversion Hall' as [|? ? [cb Hb] Hall'']; subst.
    rewrite slices_cons_cons. simpl format_pairs.
    rewrite (getitem_Some _ _ _ Ha), bind_Ok, (getitem_Some _ _ _ Hb), bind_Ok.
    destruct (IH Hall'' (acc ++ turn_strings ca cb)) as (r & Hr & Hlast).
    exists (turn_strings ca cb ++ r). split.
    + unfold turn_strings in *. rewrite Hr. by rewrite <- app_assoc.
    + intros Hev final c Hfin Hc.
      assert (Hev' : Nat.Even (length l)).
      { destruct Hev as [k Hk]. simpl in Hk. exists (k - 1). lia. }
      destruct l as [|x l'].
      * simpl in Hfin. injection Hfin as <-.
        assert (cb = c) by congruence. subst cb.
        assert (r = []) as ->.
        { simpl in Hr. injection Hr as Hr.
          apply (app_inv_head (acc ++ turn_strings ca c)).
          by rewrite app_nil_r. }
        exists ["<s>"; "[INST] "; strip ca; " [/INST] "].
        by rewrite app_nil_r.
      * rewrite !last_cons_cons in Hfin.
        destruct (Hlast Hev' final c Hfin Hc) as (r' & ->).
        exists (turn_strings ca cb ++ r'). by rewrite <- app_assoc.
Qed.

(** C9. For a non-empty instruction list whose elements all have a content,
    [format_instructions] returns a string that ends with
    "<s>[INST] ", the stripped content of the last element and " [/INST] ";
    when the list has even length, that content also stands right before,
    closed by "</s>" as the assistant turn of the last pair. *)
Theorem format_instructions_final_segment
    (instructions : list (dict string)) (final : dict string) (c : string) :
  Forall has_content instructions ->
  last instructions = Some final ->
  dict_find final "content" = Some c ->
  exists pre,
    format_instructions instructions
    = Ok (pre +:+ "<s>[INST] " +:+ strip c +:+ " [/INST] ")
    /\ (Nat.Even (length instructions) ->
        exists pre', pre = pre' +:+ strip c +:+ "</s>").
Proof.
  intros Hall Hlast Hc.
  destruct (format_pairs_slices instructions Hall []) as (r & Hr & Hev).
  unfold format_instructions. rewrite Hr, bind_Ok.
  unfold index_last. rewrite Hlast, bind_Ok.
  rewrite (getitem_Some _ _ _ Hc), bind_Ok.
  exists (join "" r). split.
  - by rewrite app_nil_l, join_empty_app.
  - intros Heven. destruct (Hev Heven final c Hlast Hc) as (r' & ->).
    exists (join "" r'). by rewrite join_empty_app.
Qed.

Lemma format_instructions_final_segment_witness :
  exists pre,
    format_instructions [msg "user" "a"; msg "assistant" "b "]
    = Ok (pre +:+ "<s>[INST] " +:+ strip "b " +:+ " [/INST] ")
    /\ (Nat.Even 2 -> exists pre', pre = pre' +:+ strip "b " +:+ "</s>").
Proof.
  apply (format_instructions_final_segment
           [msg "user" "a"; msg "assistant" "b "] (msg "assistant" "b ") "b ").
  - repeat constructor; by eexists.
  - reflexivity.
  - reflexivity.
Defined.

Example format_instructions_one :
  format_instructions [msg "user" " hi "] = Ok "<s>[INST] hi [/INST] ".
Proof. reflexivity. Qed.

Example format_instructions_two :
  format_instructions [msg "user" "a"; msg "assistant" "b "]
  = Ok "<s>[INST] a [/INST] b</s><s>[INST] b [/INST] ".
Proof. reflexivity. Qed.

Example format_instructions_three :
  format_instructions [msg "system" "s"; msg "user" "a"; msg "assistant" "b "]
  = Ok "<s>[INST] s [/INST] a</s><s>[INST] b [/INST] ".
Proof. reflexivity. Qed.

Example format_instructions_empty :
  format_instructions [] = Raise IndexError.
Proof. reflexivity. Qed.

End InstructionFormat.

(** ** Document loading *)

Section Loader.

Lemma split_without_sep (sep : ascii) (s : string) :
  has_char sep s = false -> split sep s = [s].
Proof.
  induction s as [|c s IH]; [reflexivity|]. simpl.
  destruct (Ascii.eqb c sep); [discriminate|]. simpl.
  intros H. by rewrite (IH H).
Qed.

Lemma split_with_sep (sep : ascii) (s : string) :
  has_char sep s = true -> exists p q r, split sep s = p :: q :: r.
Proof.
  induction s as [|c s IH]; [discriminate|]. simpl.
  destruct (Ascii.eqb c sep); simpl.
  - intros _. destruct s as [|c' s']; simpl.
    + by exists "", "", [].
    + destruct (Ascii.eqb c' sep); [by eexists _, _, _|].
      destruct (split sep s'); by eexists _, _, _.
  - intros H. destruct (IH H) as (p & q & r & ->). by eexists _, _, _.
Qed.

Lemma field_Ok_inv (lines : list string) (i : nat) (v : string) :
  field lines i = Ok v ->
  exists line, lines !! i = Some line /\ has_char ":" line = true.
Proof.
  unfold field, index. destruct (lines !! i) as [line|]; [|discriminate].
  rewrite bind_Ok. intros H. exists line. split; [done|].
  destruct (has_char ":" line) eqn:Hc; [done|].
  by rewrite (split_without_sep _ _ Hc) in H.
Qed.

Lemma field_Raise_inv (lines : list string) (i : nat) (e : exn) :
  field lines i = Raise e -> e = IndexError.
Proof.
  unfold field, index. destruct (lines !! i) as [line|]; [|by intros [= <-]].
  rewrite bind_Ok. destruct (split ":" line !! 1); [discriminate|].
  by intros [= <-].
Qed.

(** A malformed file makes the loop body raise [IndexError]. *)
Lemma load_file_malformed (text : string) :
  malformed text -> load_file text = Raise IndexError.
Proof.
  intros Hbad. unfold load_file.
  repeat match goal with
  | |- context [field (readlines text) ?i] =>
      let H := fresh "H" in
      destruct (field (readlines text) i) as [?|?] eqn:H;
      [ rewrite bind_Ok; apply field_Ok_inv in H
      | by rewrite (field_Raise_inv _ _ _ H) ]
  end.
  exfalso. destruct Hbad as [Hlen | (i & line & Hi & Hline & Hc)].
  - match goal with
    | H : exists l, readlines text !! 7 = Some l /\ _ |- _ =>
        destruct H as (l & Hl & _); apply lookup_lt_Some in Hl; lia
    end.
  - repeat match goal with
           | H : exists l, readlines text !! _ = Some l /\ _ |- _ =>
               destruct H as (? & ? & ?)
           end.
    do 8 (destruct i as [|i]; [congruence|]). lia.
Qed.

Lemma load_loop_app (pre post : list string) (docs : list Document) :
  load_loop (pre ++ post) docs
  = match load_loop pre docs with
    | (docs', None) => load_loop post docs'
    | stopped => stopped
    end.
Proof.
  revert docs. induction pre as [|text pre IH]; intros docs; [reflexivity|].
  simpl. destruct (load_file text); [apply IH | reflexivity].
Qed.

(** What the loop body does once the eight fields are read: it converts
    the rating text, with "nan" replaced by "0", and the document carries
    the converted number. *)
Lemma load_file_well_formed (text v : string) :
  well_formed text -> field (readlines text) 5 = Ok v ->
  exists doc_of : pyfloat -> Document,
    (forall f, rating (metadata (doc_of f)) = f)
    /\ load_file text
       = (f ← py_float (if String.eqb v "nan" then "0" else v);
          Ok (doc_of f)).
Proof.
  intros Hwf Hv. unfold load_file.
  destruct (Hwf 0) as [v0 ->]; [lia|].
  destruct (Hwf 1) as [v1 ->]; [lia|].
  destruct (Hwf 2) as [v2 ->]; [lia|].
  destruct (Hwf 3) as [v3 ->]; [lia|].
  destruct (Hwf 4) as [v4 ->]; [lia|].
  rewrite Hv.
  destruct (Hwf 6) as [v6 ->]; [lia|].
  destruct (Hwf 7) as [v7 ->]; [lia|].
  rewrite !bind_Ok.
  eexists (fun f => {| page_content := _; metadata := {| rating := f |} |}).
  split; [reflexivity|]. reflexivity.
Qed.

Lemma movie_file_well_formed :
  well_formed (movie_file "nan") /\ well_formed (movie_file "abc")
  /\ well_formed (movie_file "0.0").
Proof.
  repeat split; intros i Hi;
    do 8 (destruct i as [|i]; [eexists; reflexivity|]); lia.
Qed.

(** C1, as the code has it. In a file whose first eight lines are read
    without error, a rating value "nan" gives the rating 0.0; any other
    rating value is given to [float]: when [float] accepts it the document
    carries that number, and when [float] rejects it the exception leaves
    the loop body and no document is made. *)
Theorem load_file_rating (text v : string) :
  well_formed text -> field (readlines text) 5 = Ok v ->
  (v = "nan" ->
     exists d, load_file text = Ok d
               /\ rating (metadata d) = FDec false 0 0
               /\ float_is_zero (rating (metadata d)) = true)
  /\ (v <> "nan" -> forall f, py_float v = Ok f ->
        exists d, load_file text = Ok d /\ rating (metadata d) = f)
  /\ (v <> "nan" -> forall e, py_float v = Raise e ->
        load_file text = Raise e).
Proof.
  intros Hwf Hv.
  destruct (load_file_well_formed text v Hwf Hv) as (doc_of & Hr & ->).
  split; [|split].
  - intros ->. rewrite String.eqb_refl.
    exists (doc_of (FDec false 0 0)). by rewrite Hr.
  - intros Hne f Hf. apply eqb_neq in Hne. rewrite Hne, Hf.
    exists (doc_of f). by rewrite Hr.
  - intros Hne e He. apply eqb_neq in Hne. by rewrite Hne, He.
Qed.

Lemma load_file_rating_witness :
  exists d, load_file (movie_file "nan") = Ok d
            /\ rating (metadata d) = FDec false 0 0
            /\ float_is_zero (rating (metadata d)) = true.
Proof.
  apply (load_file_rating (movie_file "nan") "nan").
  - intros i Hi.
    do 8 (destruct i as [|i]; [eexists; reflexivity|]); lia.
  - reflexivity.
  - reflexivity.
Defined.

(** C1 as stated fails: a rating line "Rating: abc" is not coerced to
    zero, the load raises [ValueError]; and a rating is 0.0 also for the
    numeric text "0.0", which is neither "nan" nor non-numeric. *)
Lemma non_numeric_rating_not_coerced :
  py_float "abc" = Raise (ValueError "abc")
  /\ field (readlines (movie_file "abc")) 5 = Ok "abc"
  /\ load_file (movie_file "abc") = Raise (ValueError "abc")
  /\ load_docs [movie_file "abc"] = ([], Some (ValueError "abc"))
  /\ exists d, load_file (movie_file "0.0") = Ok d
               /\ float_is_zero (rating (metadata d)) = true.
Proof. repeat split. eexists. split; reflexivity. Qed.

(** C2, as the code has it. A file with fewer than eight lines, or with a
    line among its first eight that has no colon, makes the loop body
    raise [IndexError]; nothing catches it, so the loop ends there: the
    documents of the files before it stay in [docs], and no file after it
    is loaded. *)
Theorem load_stops_at_malformed
    (pre post : list string) (text : string) (docs : list Document) :
  malformed text ->
  load_docs pre = (docs, None) ->
  load_file text = Raise IndexError
  /\ load_docs (pre ++ text :: post) = (docs, Some IndexError).
Proof.
  intros Hbad Hpre. pose proof (load_file_malformed text Hbad) as Hfile.
  split; [done|]. unfold load_docs in *.
  rewrite load_loop_app, Hpre. simpl. by rewrite Hfile.
Qed.

Lemma load_stops_at_malformed_witness :
  load_file "Movie ID: 862" = Raise IndexError
  /\ load_docs ([] ++ "Movie ID: 862" :: [movie_file "7.7"])
     = ([], Some IndexError).
Proof.
  apply (load_stops_at_malformed [] [movie_file "7.7"] "Movie ID: 862" []).
  - left. vm_compute. lia.
  - reflexivity.
Defined.

(** C2 as stated fails: after a malformed file the loading does not go on
    to the next file. The second file is loaded when it is alone, and is
    not when it follows a one-line file. *)
Lemma load_does_not_continue :
  malformed "Movie ID: 862"
  /\ (exists d, load_docs [movie_file "7.7"] = ([d], None))
  /\ load_docs ["Movie ID: 862"; movie_file "7.7"] = ([], Some IndexError).
Proof.
  split; [left; vm_compute; lia|].
  split; [eexists; reflexivity | reflexivity].
Qed.

End Loader.

(** ** The content handler *)

Section ContentHandler.

(** C5. A response body that lacks the generated-text field, whatever its
    shape, makes [transform_output] raise; it returns no string. *)
Theorem transform_output_missing_field (response_json : pyval) :
  has_generated_text response_json = false ->
  exists e, transform_output response_json = Raise e.
Proof.
  unfold transform_output. intros Hno.
  destruct response_json as [| | | |s|l|d]; simpl; try by eexists.
  - destruct s as [|c s]; simpl; by eexists.
  - destruct l as [|first l]; simpl; [by eexists|].
    destruct first as [| | | |s| |d]; simpl; try by eexists.
    simpl in Hno. unfold getitem.
    destruct (dict_find d "generated_text"); [discriminate | by eexists].
Qed.

Lemma transform_output_missing_field_witness :
  exists e,
    transform_output (VDict [("not_generated_text", VStr "x")]) = Raise e.
Proof.
  apply (transform_output_missing_field
           (VDict [("not_generated_text", VStr "x")])).
  reflexivity.
Defined.

Lemma transform_output_present (response_json : pyval) :
  has_generated_text response_json = true ->
  exists v, transform_output response_json = Ok v.
Proof.
  unfold transform_output. intros Hyes.
  destruct response_json as [| | | | |[|[| | | | | |d] l]|]; try discriminate.
  simpl in *. unfold getitem.
  destruct (dict_find d "generated_text"); [by eexists | discriminate].
Qed.

Example transform_output_scenario :
  transform_output (VDict [("not_generated_text", VStr "x")])
  = Raise (KeyError (VInt 0))
  /\ transform_output (VList [VDict [("not_generated_text", VStr "x")]])
     = Raise (KeyError (VStr "generated_text"))
  /\ transform_output (VList []) = Raise IndexError
  /\ transform_output (VStr "generated_text") = Raise TypeError
  /\ transform_output (VList [VDict [("generated_text", VStr "x")]])
     = Ok (VStr "x").
Proof. repeat split. Qed.

Lemma dumps_two_keys (k1 k2 : string) (v1 v2 : pyval) :
  dumps (VDict [(k1, v1); (k2, v2)])
  = "{" +:+ dumps_str k1 +:+ ": " +:+ dumps v1 +:+ ", "
    +:+ dumps_str k2 +:+ ": " +:+ dumps v2 +:+ "}".
Proof.
  simpl. unfold fst, snd.
  by rewrite !str_app_assoc.
Qed.

Lemma dumps_plain_key :
  dumps_str "inputs" = quoted "inputs"
  /\ dumps_str "parameters" = quoted "parameters".
Proof. split; reflexivity. Qed.

(** C6, as the code has it. The request body is the UTF-8 text of
    {"inputs": <the instructions as a JSON string>, "parameters": {...}},
    and the parameters object is the dump of the model arguments passed
    in, whatever they are; for the configured [model_params] these are
    do_sample, top_p, temperature, max_new_tokens, stop and
    repetition_penalty. *)
Theorem transform_input_envelope (prompt : string) (model_kwargs : dict pyval) :
  transform_input prompt model_kwargs
  = encode_utf8
      ("{" +:+ quoted "inputs" +:+ ": "
       +:+ dumps (VStr (dumps (instructions_of prompt)))
       +:+ ", " +:+ quoted "parameters" +:+ ": "
       +:+ dumps (VDict model_kwargs) +:+ "}")
  /\ dumps (VDict model_params)
     = "{" +:+ quoted "do_sample" +:+ ": true, "
       +:+ quoted "top_p" +:+ ": 0.9, "
       +:+ quoted "temperature" +:+ ": 0.1, "
       +:+ quoted "max_new_tokens" +:+ ": 1000, "
       +:+ quoted "stop" +:+ ": [" +:+ quoted "<|endoftext|>" +:+ ", "
       +:+ quoted "</s>" +:+ "], "
       +:+ quoted "repetition_penalty" +:+ ": 1.1}".
Proof.
  split; [|reflexivity].
  unfold transform_input, instructions_of.
  rewrite dumps_two_keys.
  destruct dumps_plain_key as [-> ->]. reflexivity.
Qed.

(** C6 as stated fails: the parameters object of the configured request
    starts with a sixth setting, do_sample. *)
Lemma parameters_include_do_sample :
  transform_input "hi" model_params
  = encode_utf8
      ("{" +:+ quoted "inputs" +:+ ": "
       +:+ dumps (VStr (dumps (instructions_of "hi")))
       +:+ ", " +:+ quoted "parameters" +:+ ": {"
       +:+ quoted "do_sample" +:+ ": true, "
       +:+ quoted "top_p" +:+ ": 0.9, "
       +:+ quoted "temperature" +:+ ": 0.1, "
       +:+ quoted "max_new_tokens" +:+ ": 1000, "
       +:+ quoted "stop" +:+ ": [" +:+ quoted "<|endoftext|>" +:+ ", "
       +:+ quoted "</s>" +:+ "], "
       +:+ quoted "repetition_penalty" +:+ ": 1.1}}")
  /\ List.map fst model_params
     = ["do_sample"; "top_p"; "temperature"; "max_new_tokens"; "stop";
        "repetition_penalty"]
  /\ List.map fst model_params
     <> ["temperature"; "top_p"; "max_new_tokens"; "stop";
         "repetition_penalty"].
Proof. repeat split. discriminate. Qed.

End ContentHandler.

(** ** The prompt template *)

Section Prompt.

Lemma format_from_literal (lit rest : string) (kwargs : dict string) :
  plain lit = true ->
  format_from (lit +:+ rest) None kwargs
  = (r ← format_from rest None kwargs; Ok (lit +:+ r)).
Proof.
  induction lit as [|c lit IH]; intros Hplain.
  - rewrite str_app_nil_l.
    destruct (format_from rest None kwargs); reflexivity.
  - simpl in Hplain. apply andb_prop in Hplain as [Hc Hplain].
    rewrite str_app_cons.
    transitivity (r ← format_from (lit +:+ rest) None kwargs; Ok (String c r)).
    + destruct c as [[] [] [] [] [] [] [] []]; try discriminate Hc;
        reflexivity.
    + rewrite (IH Hplain).
      destruct (format_from rest None kwargs); reflexivity.
Qed.

Lemma format_from_name (name rest acc : string) (kwargs : dict string) :
  name_ok name = true ->
  format_from (name +:+ String "}" rest) (Some acc) kwargs
  = (v ← get_value (acc +:+ name) kwargs;
     r ← format_from rest None kwargs;
     Ok (v +:+ r)).
Proof.
  revert acc. induction name as [|c name IH]; intros acc Hok.
  - rewrite str_app_nil_r. reflexivity.
  - simpl in Hok. apply andb_prop in Hok as [Hc Hok].
    apply andb_prop in Hc as [Hc1 Hc2].
    rewrite str_app_cons.
    transitivity (format_from (name +:+ String "}" rest)
                    (Some (acc +:+ String c "")) kwargs).
    + simpl. rewrite Hc1.
      destruct c as [[] [] [] [] [] [] [] []]; try discriminate Hc2;
        reflexivity.
    + rewrite (IH _ Hok). by rewrite str_app_assoc.
Qed.

Lemma format_from_slot (name rest : string) (kwargs : dict string) :
  name_ok name = true ->
  format_from (String "{" (name +:+ String "}" rest)) None kwargs
  = (v ← get_value name kwargs;
     r ← format_from rest None kwargs;
     Ok (v +:+ r)).
Proof.
  intros Hok.
  transitivity (format_from (name +:+ String "}" rest) (Some "") kwargs);
    [|by rewrite (format_from_name name rest "" kwargs Hok)].
  destruct name as [|c name]; [reflexivity|].
  simpl in Hok. apply andb_prop in Hok as [Hc _].
  apply andb_prop in Hc as [Hc _].
  rewrite str_app_cons.
  destruct c as [[] [] [] [] [] [] [] []]; try discriminate Hc; reflexivity.
Qed.

Lemma prompt_template_segments :
  prompt_template
  = before_context +:+ String "{" ("context" +:+ String "}"
      (before_history +:+ String "{" ("chat_history" +:+ String "}"
         (before_question +:+ String "{" ("question" +:+ String "}" ""))))).
Proof. reflexivity. Qed.

(** The template is text around three lookups, made in the order
    context, chat_history, question. *)
Lemma PROMPT_format_unfold (kwargs : dict string) :
  PROMPT_format kwargs
  = (c ← getitem kwargs "context";
     h ← getitem kwargs "chat_history";
     q ← getitem kwargs "question";
     Ok (before_context +:+ c +:+ before_history +:+ h
         +:+ before_question +:+ q)).
Proof.
  unfold PROMPT_format, format. rewrite prompt_template_segments.
  rewrite format_from_literal, format_from_slot by reflexivity.
  rewrite format_from_literal, format_from_slot by reflexivity.
  rewrite format_from_literal, format_from_slot by reflexivity.
  change (get_value "context" kwargs) with (getitem kwargs "context").
  change (get_value "chat_history" kwargs)
    with (getitem kwargs "chat_history").
  change (get_value "question" kwargs) with (getitem kwargs "question").
  destruct (getitem kwargs "context") as [c|]; [|reflexivity].
  destruct (getitem kwargs "chat_history") as [h|]; [|reflexivity].
  destruct (getitem kwargs "question") as [q|]; [|reflexivity].
  simpl format_from. rewrite !bind_Ok, str_app_nil_r. reflexivity.
Qed.

(** C7. When the keyword arguments lack one of the three slots,
    [PROMPT.format] raises [KeyError] for a missing slot and returns no
    prompt. *)
Theorem prompt_missing_slot (kwargs : dict string) (slot : string) :
  slot ∈ slots -> dict_find kwargs slot = None ->
  exists missing,
    missing ∈ slots /\ dict_find kwargs missing = None
    /\ PROMPT_format kwargs = Raise (KeyError (VStr missing)).
Proof.
  intros Hslot Hnone.
  assert (Hcases : dict_find kwargs "context" = None
                   \/ dict_find kwargs "chat_history" = None
                   \/ dict_find kwargs "question" = None).
  { unfold slots in Hslot. rewrite !elem_of_cons in Hslot.
    destruct Hslot as [->|[->|[->|Hin]]]; auto.
    by apply elem_of_nil in Hin. }
  clear slot Hslot Hnone.
  rewrite PROMPT_format_unfold. unfold slots, getitem.
  destruct (dict_find kwargs "context") as [c|] eqn:Hc.
  - destruct (dict_find kwargs "chat_history") as [h|] eqn:Hh.
    + destruct (dict_find kwargs "question") as [q|] eqn:Hq.
      * destruct Hcases as [?|[?|?]]; discriminate.
      * exists "question". split; [repeat constructor|]. by split.
    + exists "chat_history". split; [repeat constructor|]. by split.
  - exists "context". split; [repeat constructor|]. by split.
Qed.

Lemma prompt_missing_slot_witness :
  exists missing,
    missing ∈ slots
    /\ dict_find [("context", "CTX"); ("question", "Q?")] missing = None
    /\ PROMPT_format [("context", "CTX"); ("question", "Q?")]
       = Raise (KeyError (VStr missing)).
Proof.
  apply (prompt_missing_slot
           [("context", "CTX"); ("question", "Q?")] "chat_history").
  - unfold slots. repeat constructor.
  - reflexivity.
Defined.

Example prompt_scenario :
  PROMPT_format [("context", "CTX"); ("question", "Q?")]
  = Raise (KeyError (VStr "chat_history"))
  /\ is_ok (PROMPT_format [("context", "CTX"); ("chat_history", "H");
                           ("question", "Q?")]) = true.
Proof. split; reflexivity. Qed.

End Prompt.

(** ** The chat loop *)

Section Chat.

Lemma is_quit_spec (prompt : string) :
  is_quit prompt = true <-> prompt = "q" \/ prompt = "quit" \/ prompt = "Q".
Proof.
  unfold is_quit. rewrite !orb_true_iff, !String.eqb_eq. intuition congruence.
Qed.

Lemma nonempty_length (s : string) :
  s <> "" -> Nat.ltb 0 (String.length s) = true.
Proof. destruct s; [congruence | reflexivity]. Qed.

Lemma lookup_snoc2_fst {A} (l : list A) (x y : A) :
  (l ++ [x; y]) !! length l = Some x.
Proof. by rewrite list_lookup_middle. Qed.

Lemma lookup_snoc2_snd {A} (l : list A) (x y : A) :
  (l ++ [x; y]) !! S (length l) = Some y.
Proof.
  rewrite lookup_app_r by lia.
  by replace (S (length l) - length l) with 1 by lia.
Qed.

(** [chat] on a quit word only prints the farewell. *)
Lemma chat_quit (llm : services) (self : ChatUX) (t : nat)
    (prompt : string) (d : bool) :
  name self = Some t -> widgets self !! t = Some (WText prompt d) ->
  is_quit prompt = true ->
  chat llm self
  = Ok {| memory := memory self; calls := calls self;
          name := name self; b := b self; out := out self;
          stdout := stdout self ++ [farewell];
          widgets := widgets self |}.
Proof.
  intros Hname Ht Hq. unfold chat, name_value.
  rewrite Hname, Ht, bind_Ok, Hq. reflexivity.
Qed.

(** [chat] on any other non-empty text runs one turn and makes a new
    input box. *)
Lemma chat_processing (llm : services) (self : ChatUX) (t btn : nat)
    (prompt : string) (d : bool) :
  name self = Some t -> b self = Some btn ->
  widgets self !! t = Some (WText prompt d) ->
  is_quit prompt = false -> prompt <> "" ->
  chat llm self = Ok (new_input (processed llm prompt t btn self)).
Proof.
  intros Hname Hb Ht Hq Hne. unfold chat, name_value.
  rewrite Hname, Ht, bind_Ok, Hq, (nonempty_length _ Hne).
  unfold processing, processed, qa_call. rewrite Hname, Hb.
  destruct (llm (memory self) prompt); reflexivity.
Qed.

(** [chat] on an empty box does nothing. *)
Lemma chat_empty (llm : services) (self : ChatUX) (t : nat) (d : bool) :
  name self = Some t -> widgets self !! t = Some (WText "" d) ->
  chat llm self = Ok self.
Proof.
  intros Hname Ht. unfold chat, name_value.
  rewrite Hname, Ht, bind_Ok. simpl. by rewrite Hname.
Qed.

Lemma chat_first (llm : services) (self : ChatUX) :
  name self = None -> chat llm self = Ok (new_input self).
Proof. intros Hname. unfold chat. rewrite Hname. simpl. by rewrite Hname. Qed.

Lemma wf_new_input (self : ChatUX) : wf (new_input self).
Proof.
  unfold wf, new_input. simpl. split; [|by eexists].
  exists "", false. apply lookup_snoc2_fst.
Qed.

Lemma replay_snoc (cs : list call) (c : call) :
  replay (cs ++ [c]) = replay cs ++ saved c.
Proof.
  unfold replay. rewrite map_app, concat_app. simpl. by rewrite app_nil_r.
Qed.

Lemma memory_processed (llm : services) (prompt : string) (t btn : nat)
    (self : ChatUX) :
  memory (processed llm prompt t btn self)
  = memory self
    ++ saved {| history := memory self; question := prompt;
                reply := llm (memory self) prompt |}.
Proof.
  unfold processed, qa_call, saved. simpl.
  destruct (llm (memory self) prompt); simpl; [done | by rewrite app_nil_r].
Qed.

(** What one call of [chat] does to the memory and to the record of
    invocations, in a consistent state: nothing, or one invocation whose
    saved messages are appended. *)
Lemma chat_spec (llm : services) (self : ChatUX) :
  wf self ->
  exists self',
    chat llm self = Ok self' /\ wf self'
    /\ ((calls self' = calls self /\ memory self' = memory self)
        \/ exists c, history c = memory self
                     /\ calls self' = calls self ++ [c]
                     /\ memory self' = memory self ++ saved c).
Proof.
  intros Hwf. unfold wf in Hwf.
  destruct (name self) as [t|] eqn:Hname.
  - destruct Hwf as ((v & d & Ht) & (btn & Hb)).
    destruct (is_quit v) eqn:Hq.
    + eexists. split; [by eapply chat_quit|]. split; [|by left].
      unfold wf. simpl. rewrite Hname. eauto.
    + destruct (decide (v = "")) as [->|Hne].
      * exists self. split; [by eapply chat_empty|]. split; [|by left].
        unfold wf. rewrite Hname. eauto.
      * eexists. split; [by eapply chat_processing|].
        split; [apply wf_new_input|]. right.
        eexists. split; [|split]; [| reflexivity | apply memory_processed].
        reflexivity.
  - eexists. split; [by apply chat_first|].
    split; [apply wf_new_input | by left].
Qed.

Lemma step_spec (ev : event) (self : ChatUX) :
  wf self ->
  exists self',
    step ev self = Ok self' /\ wf self'
    /\ ((calls self' = calls self /\ memory self' = memory self)
        \/ exists c, history c = memory self
                     /\ calls self' = calls self ++ [c]
                     /\ memory self' = memory self ++ saved c).
Proof.
  intros Hwf. destruct ev as [w s | w llm]; simpl.
  - destruct (widgets self !! w) as [[v [] | |]|] eqn:Hw;
      try (exists self; by auto).
    eexists. split; [reflexivity|]. split; [|by left].
    unfold wf in *. simpl. destruct (name self) as [t|]; [|done].
    destruct Hwf as ((v' & d' & Ht) & Hb). split; [|done].
    rewrite list_lookup_alter. destruct (decide (w = t)) as [->|].
    + rewrite Ht. simpl. eauto.
    + eauto.
  - destruct (widgets self !! w) as [[| [] |]|];
      try (exists self; by auto).
    by apply chat_spec.
Qed.

(** Along any sequence of user actions the loop does not fail, the memory
    only grows at its end, and it stays the replay of the invocations. *)
Lemma run_spec (evs : list event) (self : ChatUX) :
  wf self ->
  exists self',
    run evs self = Ok self' /\ wf self'
    /\ memory self `prefix_of` memory self'
    /\ (memory self = replay (calls self) ->
        memory self' = replay (calls self')).
Proof.
  revert self. induction evs as [|ev evs IH]; intros self Hwf.
  - exists self. by repeat split.
  - destruct (step_spec ev self Hwf) as (s1 & Hstep & Hwf1 & Hmem).
    destruct (IH s1 Hwf1) as (s2 & Hrun & Hwf2 & Hpre & Hinv).
    exists s2. simpl. rewrite Hstep, bind_Ok. split; [done|]. split; [done|].
    destruct Hmem as [[Hc Hm] | (c & _ & Hc & Hm)].
    + rewrite Hc, Hm in *. by split.
    + split.
      * etrans; [|exact Hpre]. rewrite Hm. by apply prefix_app_r.
      * intros Heq. apply Hinv. by rewrite Hc, Hm, replay_snoc, Heq.
Qed.

Lemma replay_length (cs : list call) :
  length (replay cs) = 2 * completed cs.
Proof.
  unfold replay, completed.
  induction cs as [|c cs IH]; [reflexivity|].
  simpl. rewrite length_app, IH. unfold saved, answered.
  destruct (reply c); simpl; lia.
Qed.

Lemma length_processed (llm : services) (prompt : string) (t btn : nat)
    (self : ChatUX) :
  length (widgets (processed llm prompt t btn self))
  = S (length (widgets self)).
Proof.
  unfold processed. simpl. rewrite !length_alter, length_app. simpl. lia.
Qed.

Example start_chat_awaiting :
  start_chat echo init = Ok (awaiting "")
  /\ run [Edit 0 "hello"] (awaiting "") = Ok (awaiting "hello").
Proof. split; reflexivity. Qed.

(** C3, as the code has it. When the text in the input box is exactly
    "q", "quit" or "Q", whatever the rest of the state, [chat] prints the
    farewell and does nothing else: the chain is not invoked, the memory
    is unchanged, and the widgets, among them the input box, are left as
    they were. *)
Theorem quit_sentinel_skips_processing
    (llm : services) (self : ChatUX) (t : nat) (prompt : string) (d : bool) :
  name self = Some t -> widgets self !! t = Some (WText prompt d) ->
  prompt = "q" \/ prompt = "quit" \/ prompt = "Q" ->
  exists self',
    chat llm self = Ok self'
    /\ calls self' = calls self /\ memory self' = memory self
    /\ stdout self' = stdout self ++ [farewell]
    /\ out self' = out self /\ widgets self' = widgets self
    /\ name self' = name self /\ b self' = b self.
Proof.
  intros Hname Ht Hq. apply is_quit_spec in Hq.
  eexists. split; [by eapply chat_quit|]. by repeat split.
Qed.

Lemma quit_sentinel_skips_processing_witness :
  exists self',
    chat echo (awaiting "quit") = Ok self'
    /\ calls self' = calls (awaiting "quit")
    /\ memory self' = memory (awaiting "quit")
    /\ stdout self' = stdout (awaiting "quit") ++ [farewell]
    /\ out self' = out (awaiting "quit")
    /\ widgets self' = widgets (awaiting "quit")
    /\ name self' = name (awaiting "quit")
    /\ b self' = b (awaiting "quit").
Proof.
  apply (quit_sentinel_skips_processing echo (awaiting "quit") 0 "quit" false).
  - reflexivity.
  - reflexivity.
  - right. left. reflexivity.
Defined.

(** C3 as stated fails. The comparison is exact: "QUIT" is put to the
    chain as a question. And a quit word ends nothing: after "q" the input
    box is still enabled, and a text typed into it next is processed. *)
Lemma quit_is_case_sensitive_and_not_final :
  (exists s1, run [Edit 0 "QUIT"; Press 1 echo] (awaiting "") = Ok s1
              /\ List.map question (calls s1) = ["QUIT"])
  /\ (exists s2 s3,
        run [Edit 0 "q"; Press 1 echo] (awaiting "") = Ok s2
        /\ widgets s2 = [WText "q" false; WButton false]
        /\ run [Edit 0 "hello"; Press 1 echo] s2 = Ok s3
        /\ List.map question (calls s3) = ["hello"]
        /\ memory s3 = [HumanMessage "hello"; AIMessage "re: hello"]).
Proof.
  split.
  - eexists. split; reflexivity.
  - eexists _, _. repeat split; reflexivity.
Qed.

(** C4. When the chain raises an exception during a turn, [chat] returns
    normally: the output area gets the exception text and then the line
    "AI: No answer", a fresh input box and button are displayed and
    enabled, and the chain has been invoked once for the turn. *)
Theorem failed_turn_says_no_answer
    (llm : services) (self : ChatUX) (t btn : nat) (prompt : string)
    (d : bool) (e : exn) :
  name self = Some t -> b self = Some btn ->
  widgets self !! t = Some (WText prompt d) ->
  is_quit prompt = false -> prompt <> "" ->
  llm (memory self) prompt = Raised e ->
  let t' := S (length (widgets self)) in
  exists self',
    chat llm self = Ok self'
    /\ out self'
       = out self ++ [Displayed [length (widgets self)]; PrintedExn e;
                      Printed "AI: No answer"; Displayed [t'; S t']]
    /\ name self' = Some t' /\ b self' = Some (S t')
    /\ widgets self' !! t' = Some (WText "" false)
    /\ widgets self' !! S t' = Some (WButton false)
    /\ calls self'
       = calls self ++ [{| history := memory self; question := prompt;
                           reply := Raised e |}].
Proof.
  intros Hname Hb Ht Hq Hne He t'.
  eexists. split; [by eapply chat_processing|].
  pose proof (length_processed llm prompt t btn self) as Hlen.
  unfold new_input. cbn [out name b widgets calls].
  rewrite Hlen. fold t'.
  repeat split.
  - unfold processed. cbn [out]. rewrite He.
    by rewrite <- !app_assoc.
  - subst t'. rewrite <- Hlen. apply lookup_snoc2_fst.
  - subst t'. rewrite <- Hlen. apply lookup_snoc2_snd.
  - unfold processed. cbn [calls]. by rewrite He.
Qed.

Lemma failed_turn_says_no_answer_witness :
  exists self',
    chat down (awaiting "hello") = Ok self'
    /\ out self'
       = out (awaiting "hello")
         ++ [Displayed [2]; PrintedExn (Failure "endpoint down");
             Printed "AI: No answer"; Displayed [3; 4]]
    /\ name self' = Some 3 /\ b self' = Some 4
    /\ widgets self' !! 3 = Some (WText "" false)
    /\ widgets self' !! 4 = Some (WButton false)
    /\ calls self'
       = calls (awaiting "hello")
         ++ [{| history := []; question := "hello";
                reply := Raised (Failure "endpoint down") |}].
Proof.
  apply (failed_turn_says_no_answer down (awaiting "hello") 0 1 "hello"
           false (Failure "endpoint down")).
  - reflexivity.
  - reflexivity.
  - reflexivity.
  - reflexivity.
  - discriminate.
  - reflexivity.
Defined.

Lemma qa_calls_completed (turns : list (string * string))
    (memory : list message) :
  qa_calls (List.map turn_call turns) memory
  = memory ++ concat (List.map turn_messages turns).
Proof.
  revert memory. induction turns as [|[q a] turns IH]; intros memory.
  - simpl. by rewrite app_nil_r.
  - simpl. rewrite IH. unfold turn_messages. simpl. by rewrite <- app_assoc.
Qed.

Lemma qa_calls_prefix (qs : list (services * string)) (memory : list message) :
  memory `prefix_of` qa_calls qs memory.
Proof.
  revert memory. induction qs as [|[llm q] qs IH]; intros memory; [done|].
  simpl. etrans; [|apply IH]. unfold qa_call.
  destruct (llm memory q); simpl; [by apply prefix_app_r | done].
Qed.

(** C8. On a fresh chain, N completed turns leave in the memory exactly
    their N (question, answer) pairs, in the order of the turns, and no
    call of the chain removes or moves what the memory holds. In the chat
    loop, from the start of a session and along any user actions, the loop
    never fails and the memory is the replay of the chain invocations: one
    pair per completed turn, so twice as many messages as completed turns;
    and whatever follows, the memory reached so far stays as the beginning
    of the later one. *)
Theorem conversation_memory_append_only
    (llm : services) (evs more : list event)
    (turns : list (string * string)) (qs : list (services * string))
    (held : list message) :
  (qa_calls (List.map turn_call turns) [] = concat (List.map turn_messages turns)
   /\ length (qa_calls (List.map turn_call turns) []) = 2 * length turns
   /\ held `prefix_of` qa_calls qs held)
  /\ exists s0 s1 s2,
       start_chat llm init = Ok s0
       /\ run evs s0 = Ok s1 /\ run more s1 = Ok s2
       /\ memory s1 = replay (calls s1)
       /\ length (memory s1) = 2 * completed (calls s1)
       /\ memory s1 `prefix_of` memory s2.
Proof.
  split.
  { rewrite qa_calls_completed, app_nil_l. split; [done|].
    split; [|apply qa_calls_prefix].
    induction turns as [|turn turns IH]; [done|].
    simpl. rewrite IH. lia. }
  exists (awaiting "").
  assert (Hwf0 : wf (awaiting "")).
  { split; [by exists "", false | by eexists]. }
  destruct (run_spec evs (awaiting "") Hwf0) as (s1 & Hrun1 & Hwf1 & _ & Hinv).
  destruct (run_spec more s1 Hwf1) as (s2 & Hrun2 & _ & Hpre & _).
  exists s1, s2. split; [reflexivity|]. split; [done|]. split; [done|].
  assert (Hmem : memory s1 = replay (calls s1)) by (by apply Hinv).
  split; [done|]. split; [|done].
  rewrite Hmem. apply replay_length.
Qed.

(** C10. When the chain raises an exception during a turn, the memory
    after the turn is the memory before it: neither the question nor
    "No answer" is saved. The question typed next is put to the chain with
    that same memory as its history. *)
Theorem failed_turn_keeps_memory
    (llm : services) (self : ChatUX) (t btn : nat) (prompt : string)
    (d : bool) (e : exn) :
  name self = Some t -> b self = Some btn ->
  widgets self !! t = Some (WText prompt d) ->
  is_quit prompt = false -> prompt <> "" ->
  llm (memory self) prompt = Raised e ->
  exists self',
    chat llm self = Ok self'
    /\ memory self' = memory self
    /\ forall (llm2 : services) (next : string),
         is_quit next = false -> next <> "" ->
         exists self'',
           run [Edit (S (length (widgets self))) next;
                Press (S (S (length (widgets self)))) llm2] self'
           = Ok self''
           /\ last (calls self'')
              = Some {| history := memory self; question := next;
                        reply := llm2 (memory self) next |}.
Proof.
  intros Hname Hb Ht Hq Hne He.
  eexists. split; [by eapply chat_processing|].
  pose proof (length_processed llm prompt t btn self) as Hlen.
  pose proof (memory_processed llm prompt t btn self) as Hmem.
  rewrite He in Hmem. unfold saved in Hmem. cbn [reply] in Hmem.
  rewrite app_nil_r in Hmem.
  remember (processed llm prompt t btn self) as p eqn:Hp. clear Hp.
  split; [exact Hmem|].
  intros llm2 next Hq2 Hne2.
  unfold run, step. rewrite <- Hlen.
  replace (widgets (new_input p) !! length (widgets p))
    with (Some (WText "" false))
    by (symmetry; apply lookup_snoc2_fst).
  rewrite bind_Ok. cbn [widgets new_input].
  rewrite list_lookup_alter_ne by lia.
  rewrite lookup_snoc2_snd.
  erewrite chat_processing; [| reflexivity | reflexivity | | done | done].
  - rewrite bind_Ok. eexists. split; [reflexivity|].
    cbn [calls new_input processed memory]. rewrite last_snoc.
    by rewrite Hmem.
  - cbn [widgets]. rewrite list_lookup_alter_eq, lookup_snoc2_fst.
    reflexivity.
Qed.

Lemma failed_turn_keeps_memory_witness :
  exists self',
    chat down (awaiting "hello") = Ok self'
    /\ memory self' = memory (awaiting "hello")
    /\ forall (llm2 : services) (next : string),
         is_quit next = false -> next <> "" ->
         exists self'',
           run [Edit 3 next; Press 4 llm2] self' = Ok self''
           /\ last (calls self'')
              = Some {| history := []; question := next;
                        reply := llm2 [] next |}.
Proof.
  apply (failed_turn_keeps_memory down (awaiting "hello") 0 1 "hello"
           false (Failure "endpoint down")).
  - reflexivity.
  - reflexivity.
  - reflexivity.
  - reflexivity.
  - discriminate.
  - reflexivity.
Defined.

End Chat.


(** ** Worked inputs *)

Section Worked.

Example py_float_inputs :
  List.map py_float ["0"; " 7.5 "; "1_000.5e-3"; "-.5E+2"; "-inf"; "NaN"]
  = [Ok (FDec false 0 0); Ok (FDec false 75 (-1)); Ok (FDec false 10005 (-4));
     Ok (FDec true 5 1); Ok (FInf true); Ok FNan]
  /\ List.map (fun s => is_ok (py_float s))
       ["abc"; ""; "."; "1e"; "1__0"; "_1"; "1_"; "0x10"; "--1"; "N/A"]
     = [false; false; false; false; false; false; false; false; false; false].
Proof. split; reflexivity. Qed.

Example float_is_zero_inputs :
  List.map float_is_zero
    [FDec false 0 0; FDec true 0 5; FDec false 2 (-324); FDec false 3 (-324);
     FDec false 5 (-324); FDec false 77 (-1); FNan; FInf false]
  = [true; true; true; false; false; false; false; false].
Proof. vm_compute. reflexivity. Qed.

Example float_repr_inputs :
  List.map float_repr
    [FDec false 9 (-1); FDec false 11 (-1); FDec false 1 16; FDec false 1 15;
     FDec false 1 (-4); FDec false 1 (-5); FDec true 15 (-6);
     FDec false 12345 (-2); FDec false 90 (-2); FDec false 0 3]
  = ["0.9"; "1.1"; "1e+16"; "1000000000000000.0"; "0.0001"; "1e-05";
     "-1.5e-05"; "123.45"; "0.9"; "0.0"].
Proof. reflexivity. Qed.

Example readlines_inputs :
  readlines ("a" +:+ LF +:+ LF +:+ "b") = ["a" +:+ LF; LF; "b"]
  /\ readlines ("a" +:+ LF) = ["a" +:+ LF]
  /\ readlines "" = [].
Proof. repeat split. Qed.

Example split_inputs :
  split ":" "Rating: nan" = ["Rating"; " nan"]
  /\ split ":" "Title: Alien: Covenant" = ["Title"; " Alien"; " Covenant"]
  /\ split ":" "no separator" = ["no separator"]
  /\ split "," "a,,b," = ["a"; ""; "b"; ""].
Proof. repeat split. Qed.

Example load_file_sample :
  load_docs [movie_file "7.7"; movie_file "nan"]
  = ([{| page_content := movie_file "7.7";
         metadata := {| movie_id := "862";
                        rating := FDec false 77 (-1);
                        genres := ["Animation"; "Comedy"; "Family"];
                        spoken_languages := ["English"];
                        release_date := "1995-10-30";
                        cast := ["Tom Hanks"; "Tim Allen"; "Don Rickles"] |} |};
      {| page_content := movie_file "nan";
         metadata := {| movie_id := "862";
                        rating := FDec false 0 0;
                        genres := ["Animation"; "Comedy"; "Family"];
                        spoken_languages := ["English"];
                        release_date := "1995-10-30";
                        cast := ["Tom Hanks"; "Tim Allen"; "Don Rickles"] |} |}],
     None).
Proof. reflexivity. Qed.

Example escape_inputs :
  dumps (VStr ("a" +:+ LF +:+ "b" +:+ DQ)) = DQ +:+ "a\nb\" +:+ DQ +:+ DQ
  /\ dumps (VList [VNone; VBool false; VInt (-12)]) = "[null, false, -12]"
  /\ escape_str (String (ascii_of_nat 233) (String (ascii_of_nat 127) ""))
     = "\u00e9\u007f".
Proof. repeat split. Qed.

Example format_inputs :
  format "a{{b}}c{x}" [("x", "1")] = Ok "a{b}c1"
  /\ format "a}b" [("x", "1")] = Raise (ValueError "}b")
  /\ format "a{x" [("x", "1")] = Raise (ValueError "x")
  /\ format "a{}" [("x", "1")] = Raise IndexError
  /\ format "{y}" [("x", "1")] = Raise (KeyError (VStr "y")).
Proof. repeat split. Qed.

Example chat_session :
  exists s,
    run [Edit 0 "hello"; Press 1 echo; Edit 3 "why?"; Press 4 down;
         Edit 6 "q"; Press 7 echo; Edit 6 "again"; Press 7 echo;
         Press 1 echo; Edit 0 "late"] (awaiting "")
    = Ok s
    /\ memory s = [HumanMessage "hello"; AIMessage "re: hello";
                   HumanMessage "again"; AIMessage "re: again"]
    /\ List.map question (calls s) = ["hello"; "why?"; "again"]
    /\ stdout s = ["Let's chat!"; farewell]
    /\ name s = Some 9
    /\ widgets s = [WText "hello" true; WButton true; WLabel "";
                    WText "why?" true; WButton true; WLabel "";
                    WText "again" true; WButton true; WLabel "";
                    WText "" false; WButton false].
Proof. eexists. split; [vm_compute; reflexivity|]. repeat split. Qed.

End Worked.


(** * Further properties of the notebook's code *)

(** ** The loading loop *)

Section LoaderMore.

Lemma readlines_nil (text : string) : readlines text = [] -> text = "".
Proof.
  destruct text as [|c rest]; [done|]. simpl.
  destruct (Ascii.eqb c (ascii_of_nat 10)); [discriminate|].
  destruct (readlines rest); discriminate.
Qed.

(** Joining the lines that [readlines] gives restores the text. *)
Lemma join_readlines (text : string) : join "" (readlines text) = text.
Proof.
  induction text as [|c rest IH]; [reflexivity|]. simpl.
  destruct (Ascii.eqb c (ascii_of_nat 10)).
  - by rewrite join_empty_cons, IH.
  - destruct (readlines rest) as [|l ls] eqn:Hr.
    + by rewrite (readlines_nil _ Hr).
    + rewrite join_empty_cons, str_app_cons.
      by rewrite <- join_empty_cons, IH.
Qed.

(** What a successful pass through the loop body has read and made. *)
Lemma load_file_inv (text : string) (d : Document) :
  load_file text = Ok d ->
  exists id title g l rd ra c o f,
    field (readlines text) 0 = Ok id /\ field (readlines text) 1 = Ok title
    /\ field (readlines text) 2 = Ok g /\ field (readlines text) 3 = Ok l
    /\ field (readlines text) 4 = Ok rd /\ field (readlines text) 5 = Ok ra
    /\ field (readlines text) 6 = Ok c /\ field (readlines text) 7 = Ok o
    /\ py_float (if String.eqb ra "nan" then "0" else ra) = Ok f
    /\ d = {| page_content := text;
              metadata := {| movie_id := id; rating := f;
                             genres := split "," g;
                             spoken_languages := split "," l;
                             release_date := rd;
                             cast := split "," c |} |}.
Proof.
  unfold load_file. rewrite join_readlines.
  destruct (field (readlines text) 0) as [id|]; [|discriminate].
  destruct (field (readlines text) 1) as [title|]; [|discriminate].
  destruct (field (readlines text) 2) as [g|]; [|discriminate].
  destruct (field (readlines text) 3) as [l|]; [|discriminate].
  destruct (field (readlines text) 4) as [rd|]; [|discriminate].
  destruct (field (readlines text) 5) as [ra|]; [|discriminate].
  destruct (field (readlines text) 6) as [c|]; [|discriminate].
  destruct (field (readlines text) 7) as [o|]; [|discriminate].
  rewrite !bind_Ok. cbv zeta.
  destruct (py_float (if String.eqb ra "nan" then "0" else ra)) as [f|] eqn:Hf;
    [|discriminate].
  rewrite bind_Ok. intros [= <-].
  exists id, title, g, l, rd, ra, c, o, f. repeat split; done.
Qed.

Lemma load_file_keeps_text (text : string) (d : Document) :
  load_file text = Ok d -> page_content d = text.
Proof.
  intros H. apply load_file_inv in H.
  destruct H as (id & title & g & l & rd & ra & c & o & f & H).
  by destruct H as (_ & _ & _ & _ & _ & _ & _ & _ & _ & ->).
Qed.



Lemma load_loop_contents (files : list string) (docs docs' : list Document)
    (r : option exn) :
  load_loop files docs = (docs', r) ->
  exists new,
    docs' = docs ++ new
    /\ List.map page_content new = take (length new) files
    /\ (r = None -> length new = length files)
    /\ (r <> None -> length new < length files).
Proof.
  revert docs. induction files as [|text rest IH]; intros docs; simpl.
  - intros [= <- <-]. exists []. rewrite app_nil_r. by repeat split.
  - destruct (load_file text) as [d|e] eqn:Hd.
    + intros Hloop. destruct (IH _ Hloop) as (new & -> & Hmap & Hn & Hs).
      exists (d :: new). rewrite <- app_assoc. split; [done|]. simpl.
      rewrite Hmap, (load_file_keeps_text _ _ Hd).
      split; [done|]. split; [intros Hr; by rewrite (Hn Hr)|].
      intros Hr. specialize (Hs Hr). lia.
    + intros [= <- <-]. exists []. rewrite app_nil_r. simpl.
      repeat split; [discriminate | lia].
Qed.

(** X2. Whatever the files, the documents the loop leaves in [docs] are
    those of a beginning of the file list, one per file and in the order of
    the files; they are those of all the files exactly when no exception
    ended the loop. *)
Theorem load_docs_in_file_order (files : list string) :
  exists docs r,
    load_docs files = (docs, r)
    /\ List.map page_content docs = take (length docs) files
    /\ (r = None <-> List.map page_content docs = files).
Proof.
  destruct (load_docs files) as [docs r] eqn:Hload. exists docs, r.
  split; [done|]. unfold load_docs in Hload.
  destruct (load_loop_contents _ _ _ _ Hload) as (new & Hd & Hmap & Hn & Hs).
  simpl in Hd. subst new. split; [done|]. split.
  - intros Hr. rewrite Hmap, (Hn Hr). apply firstn_all.
  - intros Heq. destruct r as [e|]; [|done].
    assert (length docs < length files) by (by apply Hs).
    apply (f_equal length) in Heq. rewrite length_map in Heq. lia.
Qed.

Lemma field_same_line (lines1 lines2 : list string) (i : nat) :
  lines1 !! i = lines2 !! i -> field lines1 i = field lines2 i.
Proof. unfold field, index. by intros ->. Qed.

(** X3. The metadata of a document is read off lines 1, 3, 4, 5, 6 and 7 of
    the file only (identifier, genres, languages, release date, rating and
    cast): two files that agree on these lines and both load give the same
    metadata, whatever their title and overview lines and whatever follows
    the eighth line. *)
Theorem metadata_ignores_title_and_overview
    (text1 text2 : string) (d1 d2 : Document) :
  (forall i, i ∈ [0; 2; 3; 4; 5; 6] ->
             readlines text1 !! i = readlines text2 !! i) ->
  load_file text1 = Ok d1 -> load_file text2 = Ok d2 ->
  metadata d1 = metadata d2.
Proof.
  intros Hsame H1 H2.
  apply load_file_inv in H1, H2.
  destruct H1 as (id & title & g & l & rd & ra & c & o & f & H1).
  destruct H2 as (id' & title' & g' & l' & rd' & ra' & c' & o' & f' & H2).
  destruct H1 as (A0 & _ & A2 & A3 & A4 & A5 & A6 & _ & Af & ->).
  destruct H2 as (B0 & _ & B2 & B3 & B4 & B5 & B6 & _ & Bf & ->).
  assert (Hf : forall i, i ∈ [0; 2; 3; 4; 5; 6] ->
                 field (readlines text1) i = field (readlines text2) i).
  { intros i Hi. apply field_same_line. by apply Hsame. }
  rewrite (Hf 0) in A0 by (repeat constructor).
  rewrite (Hf 2) in A2 by (repeat constructor).
  rewrite (Hf 3) in A3 by (repeat constructor).
  rewrite (Hf 4) in A4 by (repeat constructor).
  rewrite (Hf 5) in A5 by (repeat constructor).
  rewrite (Hf 6) in A6 by (repeat constructor).
  assert (id = id') by congruence. assert (g = g') by congruence.
  assert (l = l') by congruence. assert (rd = rd') by congruence.
  assert (ra = ra') by congruence. assert (c = c') by congruence.
  subst. assert (f = f') by congruence. by subst.
Qed.

Lemma metadata_ignores_title_and_overview_witness :
  exists d1 d2,
    load_file (movie_file "7.7") = Ok d1
    /\ load_file (movie_file_retitled "7.7") = Ok d2
    /\ metadata d1 = metadata d2.
Proof.
  eexists _, _. split; [reflexivity|]. split; [reflexivity|].
  apply (metadata_ignores_title_and_overview
           (movie_file "7.7") (movie_file_retitled "7.7")).
  - intros i Hi.
    rewrite !elem_of_cons, elem_of_nil in Hi.
    destruct Hi as [->|[->|[->|[->|[->|[->|[]]]]]]]; by vm_compute.
  - reflexivity.
  - reflexivity.
Defined.

Lemma has_char_lstrip (c : ascii) (s : string) :
  has_char c s = false -> has_char c (lstrip s) = false.
Proof.
  induction s as [|a s IH]; [done|]. simpl.
  destruct (is_space a); [|done].
  intros H. apply orb_false_elim in H as [_ H]. by apply IH.
Qed.

Lemma has_char_rstrip (c : ascii) (s : string) :
  has_char c s = false -> has_char c (rstrip s) = false.
Proof.
  induction s as [|a s IH]; [done|]. simpl.
  intros H. apply orb_false_elim in H as [Ha H]. specialize (IH H).
  destruct (rstrip s) as [|b r].
  - destruct (is_space a); [done|]. simpl. by rewrite Ha.
  - simpl in *. by rewrite Ha, IH.
Qed.

Lemma has_char_strip (c : ascii) (s : string) :
  has_char c s = false -> has_char c (strip s) = false.
Proof. intros H. by apply has_char_rstrip, has_char_lstrip. Qed.

Lemma rstrip_idemp (s : string) : rstrip (rstrip s) = rstrip s.
Proof.
  induction s as [|a s IH]; [done|]. simpl.
  destruct (rstrip s) as [|b r] eqn:Hr.
  - destruct (is_space a) eqn:Ha; [done|]. simpl. by rewrite Ha.
  - change (rstrip (String a (String b r)))
      with (match rstrip (String b r) with
            | EmptyString =>
                if is_space a then EmptyString else String a EmptyString
            | r0 => String a r0
            end).
    by rewrite IH.
Qed.

Lemma lstrip_head (s : string) :
  lstrip s = "" \/ exists c t, lstrip s = String c t /\ is_space c = false.
Proof.
  induction s as [|a s IH]; [by left|]. simpl.
  destruct (is_space a) eqn:Ha; [done|]. right. by exists a, s.
Qed.

Lemma rstrip_head (c : ascii) (t : string) :
  is_space c = false -> exists t', rstrip (String c t) = String c t'.
Proof.
  intros Hc. simpl. destruct (rstrip t); rewrite ?Hc; by eexists.
Qed.

Lemma lstrip_nonspace (c : ascii) (t : string) :
  is_space c = false -> lstrip (String c t) = String c t.
Proof. intros Hc. simpl. by rewrite Hc. Qed.

(** Stripping twice is stripping once. *)
Lemma strip_idemp (s : string) : strip (strip s) = strip s.
Proof.
  unfold strip. destruct (lstrip_head s) as [->|(c & t & -> & Hc)]; [done|].
  destruct (rstrip_head c t Hc) as [t' Ht'].
  rewrite Ht', (lstrip_nonspace _ _ Hc), <- Ht'. apply rstrip_idemp.
Qed.

Lemma split_pieces_no_sep (sep : ascii) (s : string) :
  Forall (fun p => has_char sep p = false) (split sep s).
Proof.
  induction s as [|a s IH]; simpl; [by repeat constructor|].
  destruct (Ascii.eqb a sep) eqn:Ha; [by constructor|].
  destruct (split sep s) as [|p ps]; [repeat constructor; simpl; by rewrite Ha|].
  inversion IH; subst. constructor; [|done]. simpl. by rewrite Ha.
Qed.

Lemma split_pieces_keep_absent (c sep : ascii) (s : string) :
  has_char c s = false ->
  Forall (fun p => has_char c p = false) (split sep s).
Proof.
  induction s as [|a s IH]; simpl; [by repeat constructor|].
  intros H. apply orb_false_elim in H as [Ha H]. specialize (IH H).
  destruct (Ascii.eqb a sep); [by constructor|].
  destruct (split sep s) as [|p ps]; [repeat constructor; simpl; by rewrite Ha|].
  inversion IH; subst. constructor; [|done]. simpl. by rewrite Ha.
Qed.

Lemma field_clean (lines : list string) (i : nat) (v : string) :
  field lines i = Ok v -> clean_value v.
Proof.
  unfold field, index. destruct (lines !! i) as [line|]; [|discriminate].
  rewrite bind_Ok.
  destruct (split ":" line !! 1) as [piece|] eqn:Hp; [|discriminate].
  rewrite bind_Ok. intros [= <-]. split.
  - apply has_char_strip.
    pose proof (split_pieces_no_sep ":" line) as Hall.
    rewrite Forall_lookup in Hall. by apply (Hall 1).
  - apply strip_idemp.
Qed.

Lemma split_comma_clean (v : string) :
  has_char ":" v = false -> Forall clean_item (split "," v).
Proof.
  intros Hv. apply Forall_and. split.
  - apply split_pieces_no_sep.
  - by apply split_pieces_keep_absent.
Qed.

(** X4. In the metadata of a loaded document no value holds a colon: the
    identifier and the release date hold none and have no white space at
    either end, and no genre, language or cast entry holds a colon or a
    comma. *)
Theorem metadata_values_clean (text : string) (d : Document) :
  load_file text = Ok d ->
  clean_value (movie_id (metadata d))
  /\ clean_value (release_date (metadata d))
  /\ Forall clean_item (genres (metadata d))
  /\ Forall clean_item (spoken_languages (metadata d))
  /\ Forall clean_item (cast (metadata d)).
Proof.
  intros H. apply load_file_inv in H.
  destruct H as (id & title & g & l & rd & ra & c & o & f & H).
  destruct H as (H0 & _ & H2 & H3 & H4 & _ & H6 & _ & _ & ->). simpl.
  apply field_clean in H0, H2, H3, H4, H6.
  split; [done|]. split; [done|].
  repeat split; apply split_comma_clean;
    match goal with H : clean_value ?v |- has_char _ ?v = _ => apply H end.
Qed.

Lemma metadata_values_clean_witness :
  exists d,
    load_file (movie_file "7.7") = Ok d
    /\ clean_value (movie_id (metadata d))
    /\ clean_value (release_date (metadata d))
    /\ Forall clean_item (genres (metadata d))
    /\ Forall clean_item (spoken_languages (metadata d))
    /\ Forall clean_item (cast (metadata d)).
Proof.
  eexists. split; [reflexivity|].
  apply (metadata_values_clean (movie_file "7.7")). reflexivity.
Defined.

Lemma split_at_first_sep (sep : ascii) (a b : string) :
  has_char sep a = false ->
  split sep (a +:+ String sep b) = a :: split sep b.
Proof.
  induction a as [|c a IH]; intros Ha.
  - simpl. by rewrite Ascii.eqb_refl.
  - simpl in Ha. apply orb_false_elim in Ha as [Hc Ha].
    rewrite str_app_cons. simpl. by rewrite Hc, (IH Ha).
Qed.

(** X5. The value read from a line is the stripped text between its first
    and its second colon: whatever follows a second colon on the line is
    dropped. *)
Theorem field_cut_at_second_colon
    (lines : list string) (i : nat) (label piece rest : string) :
  has_char ":" label = false -> has_char ":" piece = false ->
  lines !! i = Some (label +:+ String ":" (piece +:+ String ":" rest)) ->
  field lines i = Ok (strip piece).
Proof.
  intros Hl Hp Hline. unfold field, index. rewrite Hline, bind_Ok.
  by rewrite (split_at_first_sep _ _ _ Hl), (split_at_first_sep _ _ _ Hp).
Qed.

Lemma field_cut_at_second_colon_witness :
  field ["Title: Alien: Covenant"] 0 = Ok (strip " Alien").
Proof.
  apply (field_cut_at_second_colon ["Title: Alien: Covenant"] 0
           "Title" " Alien" " Covenant"); reflexivity.
Defined.

End LoaderMore.

(** ** The instruction formatter *)

Section InstructionFormatMore.

Lemma format_pairs_acc (pairs : list (dict string * dict string))
    (acc : list string) :
  format_pairs pairs acc = (r ← format_pairs pairs []; Ok (acc ++ r)).
Proof.
  revert acc. induction pairs as [|[user answer] pairs IH]; intros acc.
  - simpl. by rewrite app_nil_r.
  - simpl. destruct (getitem user "content") as [u|]; [|done].
    destruct (getitem answer "content") as [a|]; [|done].
    rewrite !bind_Ok, (IH (acc ++ _)), (IH [_; _; _; _; _; _]).
    destruct (format_pairs pairs []) as [r|]; [|done].
    rewrite !bind_Ok. by rewrite app_assoc.
Qed.

Lemma getitem_content_cases (d : dict string) :
  (exists c, dict_find d "content" = Some c /\ getitem d "content" = Ok c)
  \/ (~ has_content d
      /\ getitem d "content" = Raise (KeyError (VStr "content"))).
Proof.
  unfold getitem, has_content.
  destruct (dict_find d "content") as [c|]; [left; by exists c|].
  right. split; [|done]. by intros [? ?].
Qed.

(** The loop over the pairs either succeeds, and then every element it has
    read has a content, or raises the [KeyError] of a missing content. *)
Lemma format_pairs_outcome (l : list (dict string)) (acc : list string) :
  match format_pairs (zip (slice_even l) (slice_odd l)) acc with
  | Ok _ =>
      (Nat.Even (length l) -> Forall has_content l)
      /\ (Nat.Odd (length l) ->
          forall final, last l = Some final ->
                        has_content final -> Forall has_content l)
  | Raise e => e = KeyError (VStr "content") /\ ~ Forall has_content l
  end.
Proof.
  revert acc. induction l as [| a | a b l IH] using pairwise_ind; intros acc.
  - simpl. split; [done|]. intros [k Hk]. simpl in Hk. lia.
  - simpl. split.
    + intros [k Hk]. simpl in Hk. lia.
    + intros _ final [= <-] Hc. by constructor.
  - rewrite slices_cons_cons. simpl format_pairs.
    destruct (getitem_content_cases a) as [(ca & Ha & ->)|[Ha ->]].
    2:{ rewrite bind_Raise. split; [done|].
        intros Hall. inversion Hall; subst. by apply Ha. }
    rewrite bind_Ok.
    destruct (getitem_content_cases b) as [(cb & Hb & ->)|[Hb ->]].
    2:{ rewrite bind_Raise. split; [done|].
        intros Hall. inversion Hall as [|? ? ? Hall']; subst.
        inversion Hall'; subst. by apply Hb. }
    rewrite bind_Ok. specialize (IH (acc ++ turn_strings ca cb)).
    unfold turn_strings in IH.
    destruct (format_pairs _ _) as [r|e].
    + destruct IH as [Hev Hodd]. split.
      * intros [k Hk]. simpl in Hk.
        repeat constructor; [by eexists | by eexists |].
        apply Hev. exists (k - 1). lia.
      * intros [k Hk] final Hlast Hc. simpl in Hk.
        repeat constructor; [by eexists | by eexists |].
        destruct l as [|x l']; [simpl in Hk; lia|].
        rewrite !last_cons_cons in Hlast.
        apply (Hodd ltac:(exists (k - 1); simpl in *; lia) final Hlast Hc).
    + destruct IH as [-> Hnot]. split; [done|].
      intros Hall. apply Hnot.
      inversion Hall as [|? ? ? Hall']; subst. by inversion Hall'; subst.
Qed.

(** X6. [format_instructions] fails in two ways only: on the empty list
    with [IndexError], and on a non-empty list in which some element has no
    "content" key with [KeyError] for that key; on every other list it
    returns a prompt. *)
Theorem format_instructions_outcome (instructions : list (dict string)) :
  match format_instructions instructions with
  | Ok _ => instructions <> [] /\ Forall has_content instructions
  | Raise e =>
      (instructions = [] /\ e = IndexError)
      \/ (instructions <> [] /\ ~ Forall has_content instructions
          /\ e = KeyError (VStr "content"))
  end.
Proof.
  unfold format_instructions.
  pose proof (format_pairs_outcome instructions []) as Hpairs.
  destruct (format_pairs _ _) as [prompt|e].
  - rewrite bind_Ok. unfold index_last.
    destruct (last instructions) as [final|] eqn:Hlast.
    + assert (Hne : instructions <> []) by (by intros ->).
      rewrite bind_Ok.
      destruct (getitem_content_cases final) as [(c & Hc & ->)|[Hc ->]].
      * rewrite bind_Ok. split; [done|]. destruct Hpairs as [Hev Hodd].
        destruct (Nat.Even_or_Odd (length instructions)) as [He|Ho]; [auto|].
        apply (Hodd Ho final eq_refl). by eexists.
      * rewrite bind_Raise. right. split; [done|]. split; [|done].
        intros Hall. apply Hc. rewrite Forall_forall in Hall. apply Hall.
        apply last_Some in Hlast as [l' ->]. apply elem_of_app. right.
        by apply list_elem_of_singleton.
    + rewrite bind_Raise. left. split; [|done].
      by apply last_None.
  - rewrite bind_Raise. destruct Hpairs as [-> Hnot]. right.
    split; [|done]. intros ->. apply Hnot. constructor.
Qed.

Lemma slices_dialogue (exchanges : list ((string * string) * (string * string)))
    (final : dict string) :
  zip (slice_even (dialogue exchanges final))
      (slice_odd (dialogue exchanges final))
  = List.map (fun x => (msg (fst (fst x)) (snd (fst x)),
                        msg (fst (snd x)) (snd (snd x)))) exchanges.
Proof.
  induction exchanges as [|[[ru u] [ra a]] rest IH]; [reflexivity|].
  simpl dialogue. by rewrite slices_cons_cons, IH.
Qed.

Lemma last_dialogue (exchanges : list ((string * string) * (string * string)))
    (final : dict string) :
  last (dialogue exchanges final) = Some final.
Proof.
  induction exchanges as [|[[ru u] [ra a]] rest IH]; [reflexivity|].
  simpl dialogue. rewrite !last_cons, IH. reflexivity.
Qed.

Lemma format_pairs_exchanges
    (exchanges : list ((string * string) * (string * string))) :
  exists r,
    format_pairs
      (List.map (fun x => (msg (fst (fst x)) (snd (fst x)),
                           msg (fst (snd x)) (snd (snd x)))) exchanges) []
    = Ok r
    /\ join "" r = exchanges_text exchanges.
Proof.
  induction exchanges as [|[[ru u] [ra a]] rest (r & Hr & Hj)].
  - by exists [].
  - simpl. rewrite format_pairs_acc, Hr, bind_Ok.
    eexists. split; [reflexivity|].
    rewrite join_empty_app, Hj. reflexivity.
Qed.

(** X7. On a dialogue of (user, answer) exchanges followed by a final
    turn, the prompt is the text of the exchanges, each as
    "<s>[INST] user [/INST] answer</s>" with stripped contents and in order,
    followed by the final turn as "<s>[INST] content [/INST] "; every content
    is used once. *)
Theorem format_instructions_dialogue
    (exchanges : list ((string * string) * (string * string)))
    (final : dict string) (c : string) :
  dict_find final "content" = Some c ->
  format_instructions (dialogue exchanges final)
  = Ok (exchanges_text exchanges +:+ open_turn_text c).
Proof.
  intros Hc. unfold format_instructions.
  rewrite slices_dialogue.
  destruct (format_pairs_exchanges exchanges) as (r & -> & Hj).
  rewrite bind_Ok. unfold index_last. rewrite last_dialogue, bind_Ok.
  rewrite (getitem_Some _ _ _ Hc), bind_Ok.
  rewrite join_empty_app, Hj. reflexivity.
Qed.

Lemma format_instructions_dialogue_witness :
  format_instructions
    (dialogue [(("user", " Hi "), ("assistant", "Hello. "))]
       (msg "user" "Who is Woody?"))
  = Ok (exchanges_text [(("user", " Hi "), ("assistant", "Hello. "))]
        +:+ open_turn_text "Who is Woody?").
Proof.
  apply (format_instructions_dialogue
           [(("user", " Hi "), ("assistant", "Hello. "))]
           (msg "user" "Who is Woody?") "Who is Woody?").
  reflexivity.
Defined.

Lemma getitem_stripped (d1 d2 : dict string) {B} (k : string -> result B) :
  stripped_content d1 = stripped_content d2 ->
  (c ← getitem d1 "content"; k (strip c))
  = (c ← getitem d2 "content"; k (strip c)).
Proof.
  unfold stripped_content, getitem.
  destruct (dict_find d1 "content"), (dict_find d2 "content");
    simpl; try discriminate; [|done].
  intros [= H]. rewrite ?bind_Ok. simpl. by rewrite H.
Qed.

Lemma format_pairs_stripped (l1 l2 : list (dict string)) :
  Forall2 (fun d1 d2 => stripped_content d1 = stripped_content d2) l1 l2 ->
  forall acc,
    format_pairs (zip (slice_even l1) (slice_odd l1)) acc
    = format_pairs (zip (slice_even l2) (slice_odd l2)) acc.
Proof.
  revert l2. induction l1 as [| a | a b l1 IH] using pairwise_ind;
    intros l2 Hrel acc.
  - by inversion Hrel.
  - inversion Hrel as [|? a' ? l2' Ha Hrest]; subst. by inversion Hrest.
  - inversion Hrel as [|? a' ? l2' Ha Hrest]; subst.
    inversion Hrest as [|? b' ? l2'' Hb Hrest']; subst.
    rewrite !slices_cons_cons. simpl format_pairs.
    rewrite (getitem_stripped a a'
               (fun u => c ← getitem b "content";
                         format_pairs _ (acc ++ [_; _; u; _; strip c; _])) Ha).
    destruct (getitem a' "content") as [u|]; [|done]. rewrite !bind_Ok.
    rewrite (getitem_stripped b b'
               (fun c => format_pairs _ (acc ++ [_; _; _; _; c; _])) Hb).
    destruct (getitem b' "content") as [c|]; [|done]. rewrite !bind_Ok.
    by apply IH.
Qed.

Lemma last_stripped (l1 l2 : list (dict string)) :
  Forall2 (fun d1 d2 => stripped_content d1 = stripped_content d2) l1 l2 ->
  match last l1, last l2 with
  | Some d1, Some d2 => stripped_content d1 = stripped_content d2
  | None, None => True
  | _, _ => False
  end.
Proof.
  induction 1 as [|d1 d2 l1 l2 Hd Hrest IH]; [done|].
  rewrite !last_cons.
  destruct (last l1), (last l2); done.
Qed.

(** X8. The prompt depends on the instructions only through their stripped
    contents: two lists whose elements have, position by position, the same
    content up to white space at the ends give the same result, whatever
    their roles and other keys. The roles are never read. *)
Theorem format_instructions_reads_contents_only (l1 l2 : list (dict string)) :
  Forall2 (fun d1 d2 => stripped_content d1 = stripped_content d2) l1 l2 ->
  format_instructions l1 = format_instructions l2.
Proof.
  intros Hrel. unfold format_instructions.
  rewrite (format_pairs_stripped l1 l2 Hrel).
  destruct (format_pairs _ _) as [prompt|]; [|done]. rewrite !bind_Ok.
  pose proof (last_stripped l1 l2 Hrel) as Hlast. unfold index_last.
  destruct (last l1) as [d1|], (last l2) as [d2|]; try done.
  rewrite !bind_Ok.
  by rewrite (getitem_stripped d1 d2
                (fun c => Ok (join "" (prompt ++ [_; _; c; _]))) Hlast).
Qed.

Lemma format_instructions_reads_contents_only_witness :
  format_instructions [msg "user" " Hi "; msg "assistant" "Hello"; msg "user" "Bye"]
  = format_instructions [msg "system" "Hi"; msg "user" "Hello "; msg "tool" " Bye"].
Proof.
  apply (format_instructions_reads_contents_only
           [msg "user" " Hi "; msg "assistant" "Hello"; msg "user" "Bye"]
           [msg "system" "Hi"; msg "user" "Hello "; msg "tool" " Bye"]).
  repeat constructor.
Defined.

End InstructionFormatMore.

(** ** The content handler *)

Section ContentHandlerMore.

(** X9. [transform_output] returns exactly when the decoded body is a list
    whose first element is an object with the key "generated_text", and it
    returns the value under that key, of whatever type; the rest of the
    list and of the object is not looked at. *)
Theorem transform_output_returns (response_json x : pyval) :
  transform_output response_json = Ok x
  <-> exists d rest,
        response_json = VList (VDict d :: rest)
        /\ dict_find d "generated_text" = Some x.
Proof.
  unfold transform_output. split.
  - destruct response_json as [| | | |s|l|d]; simpl; try discriminate.
    + destruct s as [|c s]; simpl; discriminate.
    + destruct l as [|first l]; simpl; [discriminate|].
      destruct first as [| | | |s| |d]; simpl; try discriminate.
      unfold getitem.
      destruct (dict_find d "generated_text") as [v|] eqn:Hv; [|discriminate].
      intros [= <-]. by exists d, l.
  - intros (d & rest & -> & Hx). simpl. by rewrite (getitem_Some _ _ _ Hx).
Qed.













(** Induction on the values, with the elements of a list and the values of
    an object as smaller values. *)
Lemma pyval_nested_ind (P : pyval -> Prop) :
  P VNone -> (forall b, P (VBool b)) -> (forall z, P (VInt z)) ->
  (forall f, P (VFloat f)) -> (forall s, P (VStr s)) ->
  (forall l, Forall P l -> P (VList l)) ->
  (forall d, Forall (fun kv => P (snd kv)) d -> P (VDict d)) ->
  forall v, P v.
Proof.
  intros HNone HBool HInt HFloat HStr HList HDict.
  fix IH 1. intros [| b | z | f | s | l | d].
  - exact HNone.
  - apply HBool.
  - apply HInt.
  - apply HFloat.
  - apply HStr.
  - apply HList. induction l as [|v l IHl]; constructor; [apply IH | exact IHl].
  - apply HDict. induction d as [|[k v] d IHd]; constructor;
      [apply IH | exact IHd].
Qed.

Lemma all_ascii_app (s t : string) :
  all_ascii (s +:+ t) = all_ascii s && all_ascii t.
Proof.
  induction s as [|c s IH]; [done|].
  rewrite str_app_cons. simpl. by rewrite IH, andb_assoc.
Qed.

Lemma escape_char_ascii (c : ascii) : all_ascii (escape_char c) = true.
Proof. destruct c as [[] [] [] [] [] [] [] []]; reflexivity. Qed.

Lemma escape_str_ascii (s : string) : all_ascii (escape_str s) = true.
Proof.
  induction s as [|c s IH]; [done|]. simpl.
  by rewrite all_ascii_app, escape_char_ascii, IH.
Qed.

Lemma dumps_str_ascii (s : string) : all_ascii (dumps_str s) = true.
Proof.
  unfold dumps_str. by rewrite !all_ascii_app, escape_str_ascii.
Qed.

Lemma digits_ascii (u : Decimal.uint) :
  all_ascii (NilEmpty.string_of_uint u) = true.
Proof. induction u; simpl; done. Qed.

Lemma uint_repr_ascii (u : Decimal.uint) :
  all_ascii (NilZero.string_of_uint u) = true.
Proof. destruct u; simpl; try done; apply digits_ascii. Qed.

Lemma int_repr_ascii (z : Z) : all_ascii (int_repr z) = true.
Proof.
  unfold int_repr, NilZero.string_of_int.
  destruct (Z.to_int z) as [u|u]; [apply uint_repr_ascii|].
  simpl. apply uint_repr_ascii.
Qed.

Lemma zeros_ascii (n : nat) : all_ascii (zeros n) = true.
Proof. induction n as [|n IH]; [done|]. simpl. exact IH. Qed.

Lemma drop_trailing_zeros_ascii (s : string) :
  all_ascii s = true -> all_ascii (fst (drop_trailing_zeros s)) = true.
Proof.
  induction s as [|c s IH]; [done|]. simpl.
  intros H. apply andb_prop in H as [Hc Hs]. specialize (IH Hs).
  destruct (drop_trailing_zeros s) as [[|a r] k]; simpl in *.
  - destruct (Ascii.eqb c "0"); simpl; [done|]. by rewrite Hc.
  - by rewrite Hc, IH.
Qed.

Lemma split_at_ascii (n : nat) (s : string) :
  all_ascii s = true ->
  all_ascii (fst (split_at n s)) = true /\ all_ascii (snd (split_at n s)) = true.
Proof.
  revert s. induction n as [|n IH]; intros s Hs; [by destruct s|].
  destruct s as [|c s]; [done|]. simpl in *.
  apply andb_prop in Hs as [Hc Hs]. destruct (IH s Hs) as [Ha Hb].
  destruct (split_at n s) as [a b]. simpl in *. by rewrite Hc, Ha.
Qed.

Lemma float_repr_ascii (f : pyfloat) : all_ascii (float_repr f) = true.
Proof.
  destruct f as [|[]|neg m e]; try done. unfold float_repr.
  assert (Hsign : all_ascii (if neg then "-" else "") = true)
    by (by destruct neg).
  destruct (N.eqb m 0); [by rewrite all_ascii_app, Hsign|].
  pose proof (drop_trailing_zeros_ascii _ (uint_repr_ascii (N.to_uint m)))
    as Hdigits.
  destruct (drop_trailing_zeros _) as [digits k]. simpl in Hdigits.
  destruct (_ || _).
  - destruct (split_at_ascii 1 digits Hdigits) as [H1 H2].
    destruct (split_at 1 digits) as [d1 ds]. simpl in H1, H2.
    rewrite !all_ascii_app, Hsign, H1. simpl.
    assert (all_ascii (match ds with
                       | EmptyString => ""
                       | String _ _ => "." +:+ ds
                       end) = true) as ->.
    { destruct ds; [done|]. by rewrite all_ascii_app, H2. }
    simpl. destruct (Z.ltb _ 0); simpl;
      destruct (Nat.ltb _ 2); rewrite ?all_ascii_app; simpl;
      apply uint_repr_ascii.
  - destruct (Z.leb _ 0).
    + by rewrite !all_ascii_app, Hsign, zeros_ascii, Hdigits.
    + destruct (Z.leb _ _).
      * by rewrite !all_ascii_app, Hsign, zeros_ascii, Hdigits.
      * destruct (split_at_ascii (Z.to_nat (Z.of_nat (String.length digits)
                                            + Z.of_nat k + e)) digits Hdigits)
          as [H1 H2].
        destruct (split_at _ digits) as [a b]. simpl in H1, H2.
        by rewrite !all_ascii_app, Hsign, H1, H2.
Qed.

Lemma join_ascii (sep : string) (parts : list string) :
  all_ascii sep = true -> Forall (fun p => all_ascii p = true) parts ->
  all_ascii (join sep parts) = true.
Proof.
  intros Hsep. induction 1 as [|p parts Hp Hparts IH]; [done|].
  simpl. destruct parts as [|q parts]; [done|].
  by rewrite !all_ascii_app, Hp, Hsep, IH.
Qed.

(** [json.dumps] writes ASCII only, whatever the value. *)
Lemma dumps_ascii (v : pyval) : all_ascii (dumps v) = true.
Proof.
  induction v as [| b | z | f | s | l IH | d IH] using pyval_nested_ind.
  - done.
  - by destruct b.
  - apply int_repr_ascii.
  - apply float_repr_ascii.
  - apply dumps_str_ascii.
  - cbn [dumps]. rewrite !all_ascii_app. simpl. rewrite andb_true_r.
    apply join_ascii; [done|]. by apply Forall_map.
  - cbn [dumps]. rewrite !all_ascii_app. simpl. rewrite andb_true_r.
    apply join_ascii; [done|]. apply Forall_map.
    eapply Forall_impl; [exact IH|]. intros [k v] Hv. cbn [fst snd] in *.
    by rewrite !all_ascii_app, dumps_str_ascii, Hv.
Qed.

Lemma encode_utf8_ascii (s : string) :
  all_ascii s = true ->
  Forall (fun b => Byte.to_nat b < 128) (encode_utf8 s)
  /\ length (encode_utf8 s) = String.length s.
Proof.
  induction s as [|c s IH]; [by split|]. simpl.
  intros H. apply andb_prop in H as [Hc Hs]. destruct (IH Hs) as [Hall Hlen].
  rewrite Hc. split; [|simpl; by rewrite Hlen].
  constructor; [|done]. apply Nat.ltb_lt in Hc.
  unfold byte_of_nat. rewrite Byte.of_N_via_nat, Nat2N.id.
  destruct (Byte.of_nat (nat_of_ascii c)) as [b|] eqn:Hb.
  - apply Byte.to_of_nat in Hb. by rewrite Hb.
  - simpl. lia.
Qed.

(** X23. Whatever the prompt and the model arguments, the request body is
    ASCII only: every byte is below 128, one byte per character of the JSON
    text; characters of the prompt outside ASCII are sent as escapes. *)
Theorem transform_input_is_ascii (prompt : string) (model_kwargs : dict pyval) :
  Forall (fun b => Byte.to_nat b < 128) (transform_input prompt model_kwargs)
  /\ length (transform_input prompt model_kwargs)
     = String.length
         (dumps (VDict [("inputs", VStr (dumps (instructions_of prompt)));
                        ("parameters", VDict model_kwargs)])).
Proof.
  unfold transform_input, instructions_of.
  apply encode_utf8_ascii, dumps_ascii.
Qed.

End ContentHandlerMore.

(** ** The prompt template *)

Section PromptMore.

(** X11. When the keyword arguments give the three slots, the prompt is the
    text of the template with each slot replaced by its value as it is:
    braces inside a value are not read as fields, keys other than the three
    slots are ignored, and the order of the arguments does not matter. *)
Theorem prompt_substitutes_verbatim (kwargs : dict string) (c h q : string) :
  dict_find kwargs "context" = Some c ->
  dict_find kwargs "chat_history" = Some h ->
  dict_find kwargs "question" = Some q ->
  PROMPT_format kwargs
  = Ok (before_context +:+ c +:+ before_history +:+ h
        +:+ before_question +:+ q).
Proof.
  intros Hc Hh Hq. rewrite PROMPT_format_unfold.
  by rewrite (getitem_Some _ _ _ Hc), (getitem_Some _ _ _ Hh),
       (getitem_Some _ _ _ Hq).
Qed.

Lemma prompt_substitutes_verbatim_witness :
  PROMPT_format [("question", "Who is {context}?"); ("note", "unused");
                 ("context", "{question} {{x}}"); ("chat_history", "")]
  = Ok (before_context +:+ "{question} {{x}}" +:+ before_history +:+ ""
        +:+ before_question +:+ "Who is {context}?").
Proof.
  apply (prompt_substitutes_verbatim
           [("question", "Who is {context}?"); ("note", "unused");
            ("context", "{question} {{x}}"); ("chat_history", "")]
           "{question} {{x}}" "" "Who is {context}?"); reflexivity.
Defined.

End PromptMore.

(** ** The chat loop *)

Section ChatMore.

Lemma alter_at_length {A} (f : A -> A) (l1 l2 : list A) (x : A) :
  alter f (length l1) (l1 ++ x :: l2) = l1 ++ f x :: l2.
Proof. induction l1 as [|y l1 IH]; [done|]. simpl. f_equal. apply IH. Qed.

Lemma alter_after_length {A} (f : A -> A) (l1 l2 : list A) (x y : A) :
  alter f (S (length l1)) (l1 ++ x :: y :: l2) = l1 ++ x :: f y :: l2.
Proof. induction l1 as [|z l1 IH]; [done|]. simpl. f_equal. apply IH. Qed.

Lemma lookup_idle_text (old : list widget) (i : nat) (v : string) :
  Forall (fun w => idle w = true) old -> old !! i <> Some (WText v false).
Proof.
  intros Hall Hi. rewrite Forall_lookup in Hall. by apply Hall in Hi.
Qed.

Lemma lookup_idle_button (old : list widget) (i : nat) :
  Forall (fun w => idle w = true) old -> old !! i <> Some (WButton false).
Proof.
  intros Hall Hi. rewrite Forall_lookup in Hall. by apply Hall in Hi.
Qed.

(** In a waiting state the only enabled text box is the current one and
    the only enabled button is its own. *)
Lemma awaiting_enabled_text (old : list widget) (v v' : string) (w : nat) :
  Forall (fun x => idle x = true) old ->
  (old ++ [WText v false; WButton false]) !! w = Some (WText v' false) ->
  w = length old /\ v' = v.
Proof.
  intros Hall Hw. destruct (decide (w < length old)) as [Hlt|Hge].
  - rewrite lookup_app_l in Hw by done. by apply lookup_idle_text in Hw.
  - rewrite lookup_app_r in Hw by lia.
    destruct (w - length old) as [|[|k]] eqn:Hk; simpl in Hw; try done.
    injection Hw as <-. split; [lia|done].
Qed.

Lemma awaiting_enabled_button (old : list widget) (v : string) (w : nat) :
  Forall (fun x => idle x = true) old ->
  (old ++ [WText v false; WButton false]) !! w = Some (WButton false) ->
  w = S (length old).
Proof.
  intros Hall Hw. destruct (decide (w < length old)) as [Hlt|Hge].
  - rewrite lookup_app_l in Hw by done. by apply lookup_idle_button in Hw.
  - rewrite lookup_app_r in Hw by lia.
    destruct (w - length old) as [|[|k]] eqn:Hk; simpl in Hw; try done. lia.
Qed.

Lemma printed_app (a b : list out_item) :
  printed (a ++ b) = printed a ++ printed b.
Proof.
  induction a as [|[s|e|ws] a IH]; simpl; [done | by rewrite IH | done | done].
Qed.

Lemma printed_exns_app (a b : list out_item) :
  printed_exns (a ++ b) = printed_exns a ++ printed_exns b.
Proof.
  induction a as [|[s|e|ws] a IH]; simpl; [done | done | by rewrite IH | done].
Qed.

(** The store after a processed turn, in a waiting state. *)
Lemma widgets_processed (llm : services) (prompt v : string)
    (old : list widget) (self : ChatUX) :
  widgets self = old ++ [WText v false; WButton false] ->
  widgets (new_input (processed llm prompt (length old) (S (length old)) self))
  = (old ++ [WText v true; WButton true; WLabel ""])
    ++ [WText "" false; WButton false].
Proof.
  intros Hw. unfold new_input, processed. cbn [widgets]. rewrite Hw.
  f_equal.
  replace (length (old ++ [WText v false; WButton false]))
    with (length (old ++ [WText v false; WButton false]) + 0) by lia.
  rewrite alter_app_r. cbn [alter list_alter].
  rewrite <- app_assoc. cbn [app].
  by rewrite alter_at_length, alter_after_length.
Qed.

Lemma submitted_app (a b : list widget) :
  submitted (a ++ b) = submitted a ++ submitted b.
Proof.
  induction a as [|[v [] | d | v] a IH]; simpl; try done. by rewrite IH.
Qed.

Lemma chat_inv_step (ev : event) (self : ChatUX) :
  chat_inv self -> exists self', step ev self = Ok self' /\ chat_inv self'.
Proof.
  intros ((old & v & Hw & Hname & Hb & Hold) & Hout & Hexn & Hsub).
  destruct ev as [w s | w llm]; simpl.
  - destruct (widgets self !! w) as [[v' [] | |]|] eqn:Hlook;
      try (exists self; split; [done|]; by repeat split; try by exists old, v).
    rewrite Hw in Hlook.
    destruct (awaiting_enabled_text _ _ _ _ Hold Hlook) as [-> ->].
    eexists. split; [reflexivity|].
    assert (Hws : alter (set_value s) (length old) (widgets self)
                  = old ++ [WText s false; WButton false]).
    { rewrite Hw. by rewrite alter_at_length. }
    split; [|split; [done|split; [done|]]].
    + exists old, s. cbn [widgets name b]. by rewrite Hws.
    + cbn [widgets calls]. rewrite Hws, <- Hsub, Hw.
      by rewrite !submitted_app.
  - destruct (widgets self !! w) as [[| [] |]|] eqn:Hlook;
      try (exists self; split; [done|]; by repeat split; try by exists old, v).
    assert (Ht : widgets self !! length old = Some (WText v false)).
    { rewrite Hw. apply lookup_snoc2_fst. }
    destruct (is_quit v) eqn:Hq.
    + eexists. split; [by eapply chat_quit|].
      split; [|by repeat split]. by exists old, v.
    + destruct (decide (v = "")) as [->|Hne].
      * exists self. split; [by eapply chat_empty|].
        split; [|by repeat split]. by exists old, "".
      * eexists. split; [by eapply chat_processing|].
        split; [|split; [|split]].
        -- eexists _, "". split; [by apply widgets_processed|].
           cbn [name b new_input]. rewrite length_processed, Hw.
           rewrite !length_app. cbn [length].
           split; [f_equal; lia|]. split; [f_equal; lia|].
           apply Forall_app. split; [done|]. by repeat constructor.
        -- unfold new_input, processed. cbn [out calls].
           rewrite map_app, !printed_app. cbn [List.map printed app].
           rewrite app_nil_r. unfold reply_line at 2. cbn [reply].
           destruct (llm (memory self) v);
             rewrite !printed_app; cbn [printed]; rewrite ?app_nil_r;
             by rewrite Hout.
        -- unfold new_input, processed. cbn [out calls].
           rewrite map_app, concat_app, !printed_exns_app.
           cbn [List.map printed_exns app concat].
           rewrite !app_nil_r. unfold failure at 2. cbn [reply].
           destruct (llm (memory self) v);
             rewrite !printed_exns_app; cbn [printed_exns];
             rewrite ?app_nil_r; by rewrite Hexn.
        -- rewrite (widgets_processed llm v v old self Hw).
           unfold new_input, processed. cbn [calls].
           rewrite map_app, <- Hsub, Hw, !submitted_app.
           cbn [submitted List.map question]. by rewrite !app_nil_r.
Qed.

Lemma chat_inv_run (evs : list event) (self : ChatUX) :
  chat_inv self -> exists self', run evs self = Ok self' /\ chat_inv self'.
Proof.
  revert self. induction evs as [|ev evs IH]; intros self Hinv.
  - by exists self.
  - destruct (chat_inv_step ev self Hinv) as (s1 & Hstep & Hinv1).
    destruct (IH s1 Hinv1) as (s2 & Hrun & Hinv2).
    exists s2. simpl. by rewrite Hstep, bind_Ok.
Qed.

Lemma chat_inv_start : chat_inv (awaiting "").
Proof.
  split; [|by repeat split]. exists [], "". by repeat split.
Qed.

(** X12. From the start of a session and along any user actions, the loop
    waits for input through exactly one place: the text box and the Send
    button created last are enabled, and every widget displayed before
    them is a disabled text box, a disabled button or a cleared label. *)
Theorem one_live_input_box (llm : services) (evs : list event) :
  exists s0 s,
    start_chat llm init = Ok s0 /\ run evs s0 = Ok s /\ awaiting_input s.
Proof.
  destruct (chat_inv_run evs (awaiting "") chat_inv_start) as (s & Hrun & Hinv).
  exists (awaiting ""), s. split; [reflexivity|]. split; [done|]. apply Hinv.
Qed.

(** X13. From the start of a session and along any user actions, the
    output area holds one reply line per invocation of the chain, in order:
    "AI: " and the answer when the chain answered, "AI: No answer" when it
    raised; and the exceptions printed are those of the failed invocations,
    in order. *)
Theorem one_reply_line_per_question (llm : services) (evs : list event) :
  exists s0 s,
    start_chat llm init = Ok s0 /\ run evs s0 = Ok s
    /\ printed (out s) = List.map reply_line (calls s)
    /\ printed_exns (out s) = concat (List.map failure (calls s)).
Proof.
  destruct (chat_inv_run evs (awaiting "") chat_inv_start)
    as (s & Hrun & _ & Hout & Hexn & _).
  exists (awaiting ""), s. by repeat split.
Qed.

(** X22. From the start of a session and along any user actions, the
    disabled text boxes on display hold exactly the questions that were put
    to the chain, in order: a submitted question stays as it was typed, and
    no later action changes it. *)
Theorem displayed_questions_are_the_calls (llm : services) (evs : list event) :
  exists s0 s,
    start_chat llm init = Ok s0 /\ run evs s0 = Ok s
    /\ submitted (widgets s) = List.map question (calls s).
Proof.
  destruct (chat_inv_run evs (awaiting "") chat_inv_start) as (s & Hrun & Hinv).
  exists (awaiting ""), s. split; [reflexivity|]. split; [done|]. apply Hinv.
Qed.

(** X14. While the current text box is empty, pressing a button changes
    nothing: no line is printed, the chain is not invoked, and no widget is
    made or disabled. *)
Theorem empty_input_is_ignored
    (self : ChatUX) (t w : nat) (d : bool) (llm : services) :
  name self = Some t -> widgets self !! t = Some (WText "" d) ->
  step (Press w llm) self = Ok self.
Proof.
  intros Hname Ht. simpl.
  destruct (widgets self !! w) as [[| [] |]|]; try done.
  by eapply chat_empty.
Qed.

Lemma empty_input_is_ignored_witness :
  step (Press 1 echo) (awaiting "") = Ok (awaiting "").
Proof.
  apply (empty_input_is_ignored (awaiting "") 0 1 false echo); reflexivity.
Defined.

(** X15. A turn that the chain answers: the question and the answer are
    appended to the memory, the output area gets the label and the line
    "AI: " followed by the answer, the text box keeps the question and is
    disabled together with its button, the label is cleared, and a new
    empty text box and button are displayed after them. *)
Theorem answered_turn
    (llm : services) (self : ChatUX) (old : list widget) (v a : string) :
  widgets self = old ++ [WText v false; WButton false] ->
  name self = Some (length old) -> b self = Some (S (length old)) ->
  is_quit v = false -> v <> "" ->
  llm (memory self) v = Answer a ->
  exists self',
    chat llm self = Ok self'
    /\ memory self' = memory self ++ [HumanMessage v; AIMessage a]
    /\ out self'
       = out self ++ [Displayed [2 + length old]; Printed ("AI: " +:+ a);
                      Displayed [3 + length old; 4 + length old]]
    /\ widgets self'
       = old ++ [WText v true; WButton true; WLabel "";
                 WText "" false; WButton false]
    /\ name self' = Some (3 + length old)
    /\ b self' = Some (4 + length old).
Proof.
  intros Hw Hname Hb Hq Hne Ha.
  assert (Ht : widgets self !! length old = Some (WText v false)).
  { rewrite Hw. apply lookup_snoc2_fst. }
  eexists. split; [by eapply chat_processing|].
  assert (Hlen : length (widgets self) = 2 + length old).
  { rewrite Hw, length_app. simpl. lia. }
  split; [|split; [|split; [|split]]].
  - cbn [memory new_input]. rewrite memory_processed, Ha. reflexivity.
  - unfold new_input. cbn [out widgets]. rewrite length_processed.
    unfold processed. cbn [out]. rewrite Ha, Hlen.
    by rewrite <- !app_assoc.
  - rewrite (widgets_processed llm v v old self Hw).
    by rewrite <- app_assoc.
  - cbn [name new_input]. rewrite length_processed, Hlen. reflexivity.
  - cbn [b new_input]. rewrite length_processed, Hlen. reflexivity.
Qed.

Lemma answered_turn_witness :
  exists self',
    chat echo (second_turn "why?") = Ok self'
    /\ memory self'
       = memory (second_turn "why?")
         ++ [HumanMessage "why?"; AIMessage "re: why?"]
    /\ out self'
       = out (second_turn "why?")
         ++ [Displayed [5]; Printed ("AI: " +:+ "re: why?"); Displayed [6; 7]]
    /\ widgets self'
       = [WText "hello" true; WButton true; WLabel ""]
         ++ [WText "why?" true; WButton true; WLabel "";
             WText "" false; WButton false]
    /\ name self' = Some 6
    /\ b self' = Some 7.
Proof.
  apply (answered_turn echo (second_turn "why?")
           [WText "hello" true; WButton true; WLabel ""] "why?" "re: why?").
  - reflexivity.
  - reflexivity.
  - reflexivity.
  - reflexivity.
  - discriminate.
  - reflexivity.
Defined.

Lemma history_inv_step (ev : event) (self : ChatUX) :
  history_inv self ->
  exists self', step ev self = Ok self' /\ history_inv self'.
Proof.
  intros (Hwf & Hmem & Hhist).
  destruct (step_spec ev self Hwf) as (s1 & Hstep & Hwf1 & Hcases).
  exists s1. split; [done|]. split; [done|].
  destruct Hcases as [[Hc Hm] | (c & Hh & Hc & Hm)].
  - rewrite Hc, Hm. by split.
  - rewrite Hc, Hm. split; [by rewrite replay_snoc, Hmem|].
    intros i c' Hi.
    destruct (decide (i < length (calls self))) as [Hlt|Hge].
    + rewrite lookup_app_l in Hi by done.
      rewrite take_app_le by lia. by apply Hhist.
    + rewrite lookup_app_r in Hi by lia.
      destruct (i - length (calls self)) as [|k] eqn:Hk; [|done].
      injection Hi as <-. assert (i = length (calls self)) as -> by lia.
      rewrite take_app_length. by rewrite Hh.
Qed.

Lemma history_inv_run (evs : list event) (self : ChatUX) :
  history_inv self ->
  exists self', run evs self = Ok self' /\ history_inv self'.
Proof.
  revert self. induction evs as [|ev evs IH]; intros self Hinv.
  - by exists self.
  - destruct (history_inv_step ev self Hinv) as (s1 & Hstep & Hinv1).
    destruct (IH s1 Hinv1) as (s2 & Hrun & Hinv2).
    exists s2. simpl. by rewrite Hstep, bind_Ok.
Qed.

(** X16. From the start of a session and along any user actions, every
    question is put to the chain with, as its chat history, exactly the
    (question, answer) pairs of the invocations answered before it, in
    order: failed turns, quit words and empty inputs leave no trace in
    it. *)
Theorem history_is_answered_turns_so_far (llm : services) (evs : list event) :
  exists s0 s,
    start_chat llm init = Ok s0 /\ run evs s0 = Ok s
    /\ forall i c, calls s !! i = Some c ->
                   history c = replay (take i (calls s)).
Proof.
  assert (Hinv0 : history_inv (awaiting "")).
  { split; [|by split]. split; [by exists "", false | by eexists]. }
  destruct (history_inv_run evs (awaiting "") Hinv0) as (s & Hrun & Hinv).
  exists (awaiting ""), s. split; [reflexivity|]. split; [done|]. apply Hinv.
Qed.

End ChatMore.


(** ** Creating the collection *)

Section CollectionMore.

Lemma unsettled_shift (env : aws) (m n : nat) :
  unsettled_for env m (S n) ->
  (exists status others,
     statuses env m = Ok (status :: others) /\ settled status = false)
  /\ unsettled_for env (S m) n.
Proof.
  intros H. split.
  - destruct (H 0) as (st & others & Hs & Hn); [lia|].
    rewrite Nat.add_0_r in Hs. by exists st, others.
  - intros i Hi. destruct (H (S i)) as (st & others & Hs & Hn); [lia|].
    exists st, others. split; [|done]. by replace (S m + i) with (m + S i) by lia.
Qed.

(** While the collection is not settled the loop lists it and sleeps ten
    seconds, again and again. *)
Lemma wait_unsettled {B} (env : aws) (name : string) (m n fuel : nat)
    (k : prog B) :
  unsettled_for env m n ->
  wait_until_settled env name m (n + fuel) k
  = (waits name n ++ fst (wait_until_settled env name (m + n) fuel k),
     snd (wait_until_settled env name (m + n) fuel k)).
Proof.
  revert m. induction n as [|n IH]; intros m Hun.
  - rewrite Nat.add_0_r. simpl. by destruct (wait_until_settled _ _ _ _ _).
  - apply unsettled_shift in Hun as [(st & others & Hs & Hn) Hun].
    simpl. rewrite Hs. unfold send, index. simpl. rewrite Hn.
    unfold after. rewrite (IH (S m) Hun). simpl.
    by replace (m + S n) with (S m + n) by lia.
Qed.

Lemma wait_settled {B} (env : aws) (name : string) (n fuel : nat)
    (status : string) (others : list string) (k : prog B) :
  statuses env n = Ok (status :: others) -> settled status = true ->
  wait_until_settled env name n (S fuel) k
  = (ListCollections name :: fst k, snd k).
Proof. intros Hs Hsettled. simpl. rewrite Hs. simpl. by rewrite Hsettled. Qed.

Lemma wait_empty {B} (env : aws) (name : string) (n fuel : nat) (k : prog B) :
  statuses env n = Ok [] ->
  wait_until_settled env name n (S fuel) k
  = ([ListCollections name], Some (Raise IndexError)).
Proof. intros Hs. simpl. by rewrite Hs. Qed.

Lemma send_Ok {A B} (req : request) (a : A) (k : A -> prog B) :
  send req (Ok a) k = (req :: fst (k a), snd (k a)).
Proof. reflexivity. Qed.

Lemma create_collection_setup (env : aws) (fuel : nat)
    (identity : string) (collection : collection_detail)
    (vector_store_name index_name encryption_policy_name
     network_policy_name access_policy_name : string) :
  creations_succeed env identity collection ->
  let rest :=
    wait_until_settled env vector_store_name 0 fuel
      (send (CreateAccessPolicy access_policy_name
               (dumps (access_policy vector_store_name identity)) "data")
            (access_response env) (fun _ => host_and_ids env collection)) in
  create_opensearch_serverless_collection env fuel vector_store_name
    index_name encryption_policy_name network_policy_name access_policy_name
  = (setup_requests vector_store_name encryption_policy_name
       network_policy_name ++ fst rest, snd rest).
Proof.
  intros (Hid & Henc & Hnet & Hcol) rest.
  unfold create_opensearch_serverless_collection.
  rewrite Hid, Henc, Hnet, Hcol. reflexivity.
Qed.

(** X17. When the requests before it succeed and the n-th listing is the
    first to show the collection as ACTIVE or FAILED, the function has
    listed the collection n + 1 times and slept ten seconds after each of
    the first n listings; it then creates the access policy for the caller
    and returns the host name "<id>.<region>.aoss.amazonaws.com" with the
    collection id and ARN. A FAILED collection is handled as an ACTIVE
    one: nothing is raised. *)
Theorem collection_wait_ends_when_settled
    (env : aws) (n fuel : nat) (identity region status : string)
    (others : list string) (collection : collection_detail)
    (vector_store_name index_name encryption_policy_name
     network_policy_name access_policy_name : string) :
  creations_succeed env identity collection ->
  unsettled_for env 0 n ->
  statuses env n = Ok (status :: others) -> settled status = true ->
  access_response env = Ok tt -> default_region env = Some region ->
  create_opensearch_serverless_collection env (n + S fuel) vector_store_name
    index_name encryption_policy_name network_policy_name access_policy_name
  = (setup_requests vector_store_name encryption_policy_name
       network_policy_name
     ++ waits vector_store_name n
     ++ [ListCollections vector_store_name;
         CreateAccessPolicy access_policy_name
           (dumps (access_policy vector_store_name identity)) "data"],
     Some (Ok (((detail_id collection +:+ ".") +:+ region)
                 +:+ ".aoss.amazonaws.com",
               detail_id collection, detail_arn collection))).
Proof.
  intros Hcre Hun Hs Hsettled Hacc Hreg.
  rewrite (create_collection_setup _ _ _ _ _ _ _ _ _ Hcre). cbv zeta.
  rewrite (wait_unsettled _ _ 0 n (S fuel) _ Hun). rewrite Nat.add_0_l.
  rewrite (wait_settled _ _ _ _ _ _ _ Hs Hsettled), Hacc, send_Ok.
  unfold host_and_ids. rewrite Hreg. cbn [fst snd].
  rewrite <- ?app_assoc. reflexivity.
Qed.

Lemma sample_unsettled (final : list string) (region : option string) :
  unsettled_for (sample_account final region) 0 2.
Proof.
  intros i Hi. exists "CREATING", [].
  destruct i as [|[|i]]; [by split | by split | lia].
Qed.

Lemma sample_creations (final : list string) (region : option string) :
  creations_succeed (sample_account final region)
    "arn:aws:iam::123456789012:user/ws"
    {| detail_id := "abc123";
       detail_arn := "arn:aws:aoss:us-east-1:123456789012:collection/abc123" |}.
Proof. by repeat split. Qed.

Lemma collection_wait_ends_when_settled_witness :
  create_opensearch_serverless_collection
    (sample_account ["FAILED"] (Some "us-east-1")) (2 + S 0)
    "db" "idx" "sp" "np" "ap"
  = (setup_requests "db" "sp" "np"
     ++ waits "db" 2
     ++ [ListCollections "db";
         CreateAccessPolicy "ap"
           (dumps (access_policy "db" "arn:aws:iam::123456789012:user/ws"))
           "data"],
     Some (Ok ((("abc123" +:+ ".") +:+ "us-east-1") +:+ ".aoss.amazonaws.com",
               "abc123",
               "arn:aws:aoss:us-east-1:123456789012:collection/abc123"))).
Proof.
  apply (collection_wait_ends_when_settled
           (sample_account ["FAILED"] (Some "us-east-1")) 2 0
           "arn:aws:iam::123456789012:user/ws" "us-east-1" "FAILED" []
           {| detail_id := "abc123";
              detail_arn :=
                "arn:aws:aoss:us-east-1:123456789012:collection/abc123" |}).
  - apply sample_creations.
  - apply sample_unsettled.
  - reflexivity.
  - reflexivity.
  - reflexivity.
  - reflexivity.
Defined.

(** X18. When AWS_DEFAULT_REGION is not set, the function raises
    [TypeError] while putting the host name together, and it does so only
    at its end: the two security policies, the collection and the access
    policy have all been created by then. *)
Theorem missing_region_fails_after_creations
    (env : aws) (n fuel : nat) (identity status : string)
    (others : list string) (collection : collection_detail)
    (vector_store_name index_name encryption_policy_name
     network_policy_name access_policy_name : string) :
  creations_succeed env identity collection ->
  unsettled_for env 0 n ->
  statuses env n = Ok (status :: others) -> settled status = true ->
  access_response env = Ok tt -> default_region env = None ->
  create_opensearch_serverless_collection env (n + S fuel) vector_store_name
    index_name encryption_policy_name network_policy_name access_policy_name
  = (setup_requests vector_store_name encryption_policy_name
       network_policy_name
     ++ waits vector_store_name n
     ++ [ListCollections vector_store_name;
         CreateAccessPolicy access_policy_name
           (dumps (access_policy vector_store_name identity)) "data"],
     Some (Raise TypeError)).
Proof.
  intros Hcre Hun Hs Hsettled Hacc Hreg.
  rewrite (create_collection_setup _ _ _ _ _ _ _ _ _ Hcre). cbv zeta.
  rewrite (wait_unsettled _ _ 0 n (S fuel) _ Hun). rewrite Nat.add_0_l.
  rewrite (wait_settled _ _ _ _ _ _ _ Hs Hsettled), Hacc, send_Ok.
  unfold host_and_ids. rewrite Hreg. cbn [fst snd].
  rewrite <- ?app_assoc. reflexivity.
Qed.

Lemma missing_region_fails_after_creations_witness :
  create_opensearch_serverless_collection
    (sample_account ["ACTIVE"] None) (2 + S 0) "db" "idx" "sp" "np" "ap"
  = (setup_requests "db" "sp" "np"
     ++ waits "db" 2
     ++ [ListCollections "db";
         CreateAccessPolicy "ap"
           (dumps (access_policy "db" "arn:aws:iam::123456789012:user/ws"))
           "data"],
     Some (Raise TypeError)).
Proof.
  apply (missing_region_fails_after_creations
           (sample_account ["ACTIVE"] None) 2 0
           "arn:aws:iam::123456789012:user/ws" "ACTIVE" []
           {| detail_id := "abc123";
              detail_arn :=
                "arn:aws:aoss:us-east-1:123456789012:collection/abc123" |}).
  - apply sample_creations.
  - apply sample_unsettled.
  - reflexivity.
  - reflexivity.
  - reflexivity.
  - reflexivity.
Defined.

(** X19. When a listing comes back with no collection summary, the
    function raises [IndexError] at once: the security policies and the
    collection exist by then, and the access policy is never created. *)
Theorem empty_listing_raises_index_error
    (env : aws) (n fuel : nat) (identity : string)
    (collection : collection_detail)
    (vector_store_name index_name encryption_policy_name
     network_policy_name access_policy_name : string) :
  creations_succeed env identity collection ->
  unsettled_for env 0 n ->
  statuses env n = Ok [] ->
  create_opensearch_serverless_collection env (n + S fuel) vector_store_name
    index_name encryption_policy_name network_policy_name access_policy_name
  = (setup_requests vector_store_name encryption_policy_name
       network_policy_name
     ++ waits vector_store_name n ++ [ListCollections vector_store_name],
     Some (Raise IndexError)).
Proof.
  intros Hcre Hun Hs.
  rewrite (create_collection_setup _ _ _ _ _ _ _ _ _ Hcre). cbv zeta.
  rewrite (wait_unsettled _ _ 0 n (S fuel) _ Hun). rewrite Nat.add_0_l.
  rewrite (wait_empty _ _ _ _ _ Hs). cbn [fst snd].
  rewrite <- ?app_assoc. reflexivity.
Qed.

Lemma empty_listing_raises_index_error_witness :
  create_opensearch_serverless_collection
    (sample_account [] (Some "us-east-1")) (2 + S 0) "db" "idx" "sp" "np" "ap"
  = (setup_requests "db" "sp" "np" ++ waits "db" 2 ++ [ListCollections "db"],
     Some (Raise IndexError)).
Proof.
  apply (empty_listing_raises_index_error
           (sample_account [] (Some "us-east-1")) 2 0
           "arn:aws:iam::123456789012:user/ws"
           {| detail_id := "abc123";
              detail_arn :=
                "arn:aws:aoss:us-east-1:123456789012:collection/abc123" |}).
  - apply sample_creations.
  - apply sample_unsettled.
  - reflexivity.
Defined.

Lemma count_sleeps_app (a b : list request) :
  count_sleeps (a ++ b) = count_sleeps a + count_sleeps b.
Proof. unfold count_sleeps. by rewrite List.filter_app, length_app. Qed.

Lemma count_sleeps_waits (name : string) (n : nat) :
  count_sleeps (waits name n) = n.
Proof.
  induction n as [|n IH]; [done|].
  unfold count_sleeps in *. simpl. by rewrite IH.
Qed.

(** X20. The wait has no limit of its own: as long as every listing shows
    a collection that is neither ACTIVE nor FAILED, the function keeps
    listing and sleeping; after any number of listings it has not
    returned, and it has slept once per listing. *)
Theorem collection_wait_has_no_limit
    (env : aws) (fuel : nat) (identity : string)
    (collection : collection_detail)
    (vector_store_name index_name encryption_policy_name
     network_policy_name access_policy_name : string) :
  creations_succeed env identity collection ->
  (forall n, unsettled_for env 0 n) ->
  snd (create_opensearch_serverless_collection env fuel vector_store_name
         index_name encryption_policy_name network_policy_name
         access_policy_name) = None
  /\ count_sleeps
       (fst (create_opensearch_serverless_collection env fuel
               vector_store_name index_name encryption_policy_name
               network_policy_name access_policy_name)) = fuel.
Proof.
  intros Hcre Hun.
  rewrite (create_collection_setup _ _ _ _ _ _ _ _ _ Hcre). cbv zeta.
  pose proof (wait_unsettled env vector_store_name 0 fuel 0
                (send (CreateAccessPolicy access_policy_name
                         (dumps (access_policy vector_store_name identity))
                         "data")
                      (access_response env)
                      (fun _ => host_and_ids env collection))
                (Hun fuel)) as Hwait.
  rewrite Nat.add_0_r in Hwait. rewrite Hwait. cbn [fst snd wait_until_settled].
  split; [done|].
  rewrite !count_sleeps_app, count_sleeps_waits.
  unfold setup_requests, count_sleeps. simpl. lia.
Qed.

Lemma collection_wait_has_no_limit_witness :
  snd (create_opensearch_serverless_collection stuck_account 7
         "db" "idx" "sp" "np" "ap") = None
  /\ count_sleeps
       (fst (create_opensearch_serverless_collection stuck_account 7
               "db" "idx" "sp" "np" "ap")) = 7.
Proof.
  apply (collection_wait_has_no_limit stuck_account 7
           "arn:aws:iam::123456789012:user/ws"
           {| detail_id := "abc123";
              detail_arn :=
                "arn:aws:aoss:us-east-1:123456789012:collection/abc123" |}).
  - by repeat split.
  - intros n i Hi. by exists "CREATING", [].
Defined.

End CollectionMore.


(** ** Printing the source documents *)

Section PrintMore.

Lemma digits_no_line_feed (u : Decimal.uint) :
  has_char (ascii_of_nat 10) (NilEmpty.string_of_uint u) = false.
Proof. induction u; simpl; done. Qed.

Lemma int_repr_no_line_feed (z : Z) :
  has_char (ascii_of_nat 10) (int_repr z) = false.
Proof.
  unfold int_repr, NilZero.string_of_int, NilZero.string_of_uint.
  destruct (Z.to_int z) as [u|u]; [destruct u|destruct u]; simpl;
    try done; apply digits_no_line_feed.
Qed.

Lemma has_char_app (c : ascii) (s t : string) :
  has_char c (s +:+ t) = has_char c s || has_char c t.
Proof.
  induction s as [|a s IH]; [done|].
  rewrite str_app_cons. simpl. by rewrite IH, orb_assoc.
Qed.

Lemma replace_char_removes (old new : ascii) (s : string) :
  old <> new -> has_char old (replace_char old new s) = false.
Proof.
  intros Hne. induction s as [|c s IH]; [done|]. simpl.
  rewrite IH, orb_false_r.
  destruct (Ascii.eqb c old) eqn:Hc; [|done].
  apply Ascii.eqb_neq. congruence.
Qed.

Lemma replace_char_length (old new : ascii) (s : string) :
  String.length (replace_char old new s) = String.length s.
Proof. induction s as [|c s IH]; [done|]. simpl. by rewrite IH. Qed.

Lemma print_sources_from_spec (idx : nat) (docs : list Document) :
  length (print_sources_from idx docs) = 2 * length docs
  /\ Forall (fun line => has_char (ascii_of_nat 10) line = false)
       (print_sources_from idx docs)
  /\ forall i doc,
       docs !! i = Some doc ->
       exists line,
         print_sources_from idx docs !! (2 * i + 1) = Some line
         /\ String.length line = String.length (page_content doc).
Proof.
  revert idx. induction docs as [|d docs IH]; intros idx.
  - by repeat split.
  - destruct (IH (S idx)) as (Hlen & Hall & Hline). simpl. split; [|split].
    + rewrite Hlen. lia.
    + constructor; [|constructor; [|done]].
      * rewrite !has_char_app, int_repr_no_line_feed. reflexivity.
      * by apply replace_char_removes.
    + intros [|i] doc Hi.
      * injection Hi as <-. eexists. split; [reflexivity|].
        apply replace_char_length.
      * destruct (Hline i doc Hi) as (line & Hl & Hlen').
        exists line. split; [|done].
        replace (S i + (S i + 0) + 1) with (S (S (2 * i + 1))) by lia.
        exact Hl.
Qed.

(** X21. The loop that shows the source documents prints two lines per
    document, a header and the content; no printed line holds a line
    feed, so each document takes exactly one line after its header, and
    that line is as long as the content: line feeds are replaced by
    spaces, nothing is dropped. *)
Theorem print_sources_one_line_each (docs : list Document) :
  length (print_sources docs) = 2 * length docs
  /\ Forall (fun line => has_char (ascii_of_nat 10) line = false)
       (print_sources docs)
  /\ forall i doc,
       docs !! i = Some doc ->
       exists line,
         print_sources docs !! (2 * i + 1) = Some line
         /\ String.length line = String.length (page_content doc).
Proof. apply print_sources_from_spec. Qed.

Example print_sources_sample :
  print_sources
    [{| page_content := "Title: A" +:+ LF +:+ "Rating: 7" +:+ LF;
        metadata := {| movie_id := "1"; rating := FDec false 7 0;
                       genres := []; spoken_languages := [];
                       release_date := ""; cast := [] |} |}]
  = ["=== doc 1 ===="; "Title: A Rating: 7 "].
Proof. reflexivity. Qed.

End PrintMore.
